(** * terraform-provider-random: constrained string generation and seeded shuffle

    A shallow embedding of [internal/provider_fm/string.go]
    ([createString], [generateRandomBytes], [validateLength],
    [lengthValidator.Validate]) together with the parts of the Go runtime
    and standard library these functions rest on, and the properties the
    specification states about them. *)

From Stdlib Require Import ZArith Lia Ascii String.
From stdpp Require Import gmap strings list pretty.

Local Open Scope Z_scope.

(** ** The Go side: int64, panics, errors, crypto/rand, sort.Slice *)

Module Go.

(** [int64] values are integers in [-2^63, 2^63); arithmetic wraps. *)
Definition int64_range (z : Z) : Prop := - 2 ^ 63 <= z < 2 ^ 63.

Definition wrap64 (z : Z) : Z := (z + 2 ^ 63) mod 2 ^ 64 - 2 ^ 63.

(** [[]byte]: a Go byte is an [ascii]; a Go [string] is a [string]. *)
Definition bytes : Type := list ascii.

Definition error : Type := string.

(** [crypto/rand.Reader] is a finite tape of bytes (an entry [r] stands
    for the byte [r mod 256]); reading past its end fails, which is how the
    entropy source fails to supply bytes. *)
Definition Reader : Type := list Z.

(** What running a piece of Go code against the reader yields: a value and
    the rest of the tape, a returned [error], or a runtime panic. *)
Inductive exec (A : Type) : Type :=
| Val (a : A) (rd : Reader)
| Err (e : error)
| Panic (msg : string).
Arguments Val {A} a rd.
Arguments Err {A} e.
Arguments Panic {A} msg.

Definition M (A : Type) : Type := Reader -> exec A.

Definition ret {A} (a : A) : M A := fun rd => Val a rd.

Definition bind {A B} (m : M A) (k : A -> M B) : M B :=
  fun rd =>
    match m rd with
    | Val a rd' => k a rd'
    | Err e => Err e
    | Panic msg => Panic msg
    end.

Definition panic {A} (msg : string) : M A := fun _ => Panic msg.

(** [io.EOF] and [io.ErrUnexpectedEOF]. *)
Definition EOF : error := "EOF".
Definition ErrUnexpectedEOF : error := "unexpected EOF".

(** The two errors a finite reader gives. *)
Definition reader_error (e : error) : Prop := e = EOF \/ e = ErrUnexpectedEOF.

(** The runtime refuses to allocate more than [maxAlloc] bytes: [2^48] on
    the 64-bit targets with 48 address bits (linux/amd64 among them).
    Memory below that limit is taken to be available. *)
Definition maxAlloc : Z := 2 ^ 48.

(** [io.ReadFull(rand.Reader, b)] with [len(b) = n]: nothing is read for
    [n = 0]; otherwise [n] bytes, [io.EOF] when the reader has none left
    and [io.ErrUnexpectedEOF] when it has some but fewer than [n]. *)
Definition ReadFull (n : nat) : M (list Z) :=
  fun rd =>
    match n with
    | O => Val [] rd
    | S _ =>
        match rd with
        | [] => Err EOF
        | _ :: _ =>
            if (List.length rd <? n)%nat then Err ErrUnexpectedEOF
            else Val ((fun r => r mod 256) <$> take n rd) (drop n rd)
        end
    end.

(** [rand.Read(b)] is [io.ReadFull(rand.Reader, b)]. *)
Definition rand_Read (n : nat) : M (list Z) := ReadFull n.

(** [big.Int.BitLen] of a non-negative integer and [big.Int.SetBytes]
    (big-endian). *)
Definition bitLen (n : Z) : Z := if n <=? 0 then 0 else Z.log2 n + 1.

Definition SetBytes (bs : list Z) : Z :=
  fold_left (fun acc b => acc * 256 + b) bs 0.

(** [rand.Int(rand.Reader, max)]:
<<
  if max.Sign() <= 0 { panic("crypto/rand: argument to Int is <= 0") }
  n.Sub(max, 1); bitLen := n.BitLen()
  if bitLen == 0 { return }               // the only valid result is 0
  k := (bitLen + 7) / 8
  b := uint(bitLen % 8); if b == 0 { b = 8 }
  bytes := make([]byte, k)
  for {
    _, err = io.ReadFull(rand, bytes); if err != nil { return nil, err }
    bytes[0] &= uint8(int(1<<b) - 1)
    n.SetBytes(bytes)
    if n.Cmp(max) < 0 { return }
  }
>>
    [Int_bytes max] is [k]; [Int_candidate b bytes] the candidate of one
    round.  Every round takes [k >= 1] bytes off the reader, so the loop
    ends at the latest when the reader is exhausted; the fuel, the length
    of the reader, therefore never runs out before [io.ReadFull] fails. *)
Definition Int_bytes (max : Z) : nat := Z.to_nat ((bitLen (max - 1) + 7) / 8).

Definition Int_bits (max : Z) : Z :=
  let b := bitLen (max - 1) mod 8 in if b =? 0 then 8 else b.

Definition Int_candidate (b : Z) (bytes : list Z) : Z :=
  match bytes with
  | [] => 0
  | b0 :: rest => SetBytes (Z.land b0 (2 ^ b - 1) :: rest)
  end.

Fixpoint Int_loop (max : Z) (fuel : nat) : M Z :=
  fun rd =>
    match ReadFull (Int_bytes max) rd with
    | Val bytes rd' =>
        let n := Int_candidate (Int_bits max) bytes in
        if n <? max then Val n rd'
        else match fuel with
             | O => Err EOF
             | S fuel' => Int_loop max fuel' rd'
             end
    | Err e => Err e
    | Panic msg => Panic msg
    end.

Definition rand_Int (max : Z) : M Z :=
  fun rd =>
    if max <=? 0 then Panic "crypto/rand: argument to Int is <= 0"
    else if bitLen (max - 1) =? 0 then Val 0 rd
    else Int_loop max (List.length rd) rd.

(** [s[i]] on a string: a byte, or a panic out of range. *)
Definition index (s : string) (i : Z) : M ascii :=
  if i <? 0 then panic "index out of range"
  else match String.get (Z.to_nat i) s with
       | Some c => ret c
       | None => panic "index out of range"
       end.

(** [len(s)] as an [int]. *)
Definition len (s : string) : Z := Z.of_nat (String.length s).

(** The swap function [sort.Slice] gets from [reflect.Swapper]: it
    exchanges two elements of the slice and panics out of range. *)
Definition swap {A} (l : list A) (i j : nat) : option (list A) :=
  match l !! i, l !! j with
  | Some x, Some y => Some (<[i := y]> (<[j := x]> l))
  | _, _ => None
  end.

Fixpoint apply_swaps {A} (sw : list (nat * nat)) (l : list A) : option (list A) :=
  match sw with
  | [] => Some l
  | (i, j) :: sw' =>
      match swap l i j with
      | Some l' => apply_swaps sw' l'
      | None => None
      end
  end.

(** [insertionSort_func(data, a, b)] of package sort, the routine
    [sort.Slice] runs on a short slice:
<<
    for i := a + 1; i < b; i++ {
      for j := i; j > a && data.Less(j, j-1); j-- {
        data.Swap(j, j-1)
      }
    }
>>
    [data.Less] is the caller's closure and never looks at the slice
    being sorted, so the run is determined by the swaps it performs. *)
Fixpoint insertion_inner (less : nat -> nat -> bool) (a j : nat) : list (nat * nat) :=
  match j with
  | O => []
  | S j' =>
      if (a <? S j')%nat && less (S j') j'
      then (S j', j') :: insertion_inner less a j'
      else []
  end.

Definition insertionSort_func (less : nat -> nat -> bool) (a b : nat) : list (nat * nat) :=
  flat_map (insertion_inner less a) (seq (S a) (b - S a)).

(** Go's map iteration order is unspecified and randomised by the
    runtime: [range] may visit the entries in any order.  The runtime's
    choice is a list of insertion positions, which reaches every
    permutation of the entries and nothing else. *)
Fixpoint insert_at {A} (n : nat) (x : A) (l : list A) : list A :=
  match n, l with
  | O, _ => x :: l
  | S _, [] => [x]
  | S n', y :: l' => y :: insert_at n' x l'
  end.

Fixpoint permute_by {A} (picks : list nat) (l : list A) : list A :=
  match l with
  | [] => []
  | x :: l' => insert_at (hd O picks) x (permute_by (tl picks) l')
  end.

Definition range_map {V} (picks : list nat) (m : gmap string V) : list (string * V) :=
  permute_by picks (map_to_list m).

(** A call either returns or panics. *)
Inductive outcome (A : Type) : Type :=
| Returned (a : A)
| Panicked (msg : string).
Arguments Returned {A} a.
Arguments Panicked {A} msg.

End Go.

Import Go.

Notation "'let*' x ':=' m 'in' k" := (bind m (fun x => k))
  (at level 10, x name, m at level 100, k at level 200).

(** ** The framework's values: diagnostics, the resource model, request and response *)

Inductive Severity : Type := SeverityError | SeverityWarning.

Record Diagnostic : Type := {
  severity : Severity;
  Summary : string;
  Detail : string
}.

(** [diag.Diagnostics.AddError] and [HasError]. *)
Definition AddError (ds : list Diagnostic) (summary detail : string) : list Diagnostic :=
  ds ++ [ {| severity := SeverityError; Summary := summary; Detail := detail |} ].

Definition is_error (d : Diagnostic) : bool :=
  match severity d with SeverityError => true | SeverityWarning => false end.

Definition HasError (ds : list Diagnostic) : bool := existsb is_error ds.

(** The model struct [String] of the resource (a [types.Int64], [types.Bool]
    or [types.String] attribute is its [Value]). *)
Record StringModel : Type := {
  ID : string;
  Keepers : gmap string string;
  Length : Z;
  Special : bool;
  Upper : bool;
  Lower : bool;
  Number : bool;
  MinNumeric : Z;
  MinUpper : Z;
  MinLower : Z;
  MinSpecial : Z;
  OverrideSpecial : string;
  Result : string
}.

(** [req.Plan.Get(ctx, &plan)] decodes the plan and returns diagnostics. *)
Record CreateResourceRequest : Type := {
  Plan : StringModel;
  Plan_diags : list Diagnostic
}.

Record CreateResourceResponse : Type := {
  Diagnostics : list Diagnostic;
  State : option StringModel
}.

(** ** string.go *)

(** [lengthValidator.Validate] on the configured [length]. *)
Definition lengthValidator_Validate (t : Z) : list Diagnostic :=
  if t <? 1
  then AddError []
         ("expected length to be at least 1, got " +:+ pretty t)
         ("expected length to be at least 1, got " +:+ pretty t)
  else [].

Definition numChars : string := "0123456789".
Definition lowerChars : string := "abcdefghijklmnopqrstuvwxyz".
Definition upperChars : string := "ABCDEFGHIJKLMNOPQRSTUVWXYZ".
Definition defaultSpecialChars : string := "!@#$%&*()-_=+[]{}<>:?".

(** [generateRandomBytes]: [make([]byte, length)] panics on a negative
    length and above the allocator's limit; then one [rand.Int] per byte,
    in index order, the first error of the reader being returned at
    once. *)
Fixpoint fill (charSet : string) (n : nat) : M bytes :=
  match n with
  | O => ret []
  | S n' =>
      let* idx := rand_Int (len charSet) in
      let* c := index charSet idx in
      let* rest := fill charSet n' in
      ret (c :: rest)
  end.

Definition generateRandomBytes (charSet : string) (length : Z) : M bytes :=
  if (length <? 0) || (maxAlloc <? length) then panic "makeslice: len out of range"
  else fill charSet (Z.to_nat length).

(** The pieces of [createString] that depend on the plan only.

    [specialChars]: the default set, replaced by the override under
    [if overrideSpecial != ""]. *)
Definition specialChars_of (plan : StringModel) : string :=
  if String.eqb (OverrideSpecial plan) "" then defaultSpecialChars
  else OverrideSpecial plan.

(** [chars]: the sets of the enabled classes, appended in the order upper,
    lower, number, special. *)
Definition chars_of (plan : StringModel) : string :=
  (if Upper plan then upperChars else "") +:+
  (if Lower plan then lowerChars else "") +:+
  (if Number plan then numChars else "") +:+
  (if Special plan then specialChars_of plan else "").

(** [minMapping]: the map literal keyed by the character sets.  Its
    entries are stored in source order (numeric, lower, upper, special), a
    later entry with the same key replacing the earlier one. *)
Definition minMapping_of (plan : StringModel) : gmap string Z :=
  <[specialChars_of plan := MinSpecial plan]>
    (<[upperChars := MinUpper plan]>
       (<[lowerChars := MinLower plan]>
          (<[numChars := MinNumeric plan]> ∅))).

(** [for k, v := range minMapping { ... result = append(result, s...) }] *)
Fixpoint minLoop (entries : list (string * Z)) (result : bytes) : M bytes :=
  match entries with
  | [] => ret result
  | (k, v) :: rest =>
      let* s := generateRandomBytes k v in
      minLoop rest (result ++ s)
  end.

(** [func(i, j int) bool { return order[i] < order[j] }] *)
Definition order_less (order : list Z) (i j : nat) : bool :=
  match order !! i, order !! j with
  | Some a, Some b => a <? b
  | _, _ => false
  end.

Definition random_bytes_error (resp : CreateResourceResponse) (err : error)
  : CreateResourceResponse :=
  {| Diagnostics :=
       AddError (Diagnostics resp) "error generating random bytes"
         ("error generating random bytes: " +:+ err);
     State := State resp |}.

(** The struct [str] written to the state by [resp.State.Set], which adds
    no diagnostic for a value of the schema's own model: the plan's values
    (the locals [length], [upper], ... of [createString]), the result, and
    the id, which is the result unless the resource is sensitive. *)
Definition new_state (plan : StringModel) (sensitive : bool) (result : string)
  : StringModel :=
  {| ID := if sensitive then "none" else result;
     Keepers := Keepers plan;
     Length := Length plan;
     Special := Special plan;
     Upper := Upper plan;
     Lower := Lower plan;
     Number := Number plan;
     MinNumeric := MinNumeric plan;
     MinUpper := MinUpper plan;
     MinLower := MinLower plan;
     MinSpecial := MinSpecial plan;
     OverrideSpecial := OverrideSpecial plan;
     Result := result |}.

Section CreateString.

(** [sort.Slice(x, less)] touches [x] only through the swap function and
    decides by [less] only; which sorting routine it runs depends on the
    Go release and on the length.  [sort_func less n] is the sequence of
    swaps the routine performs on a slice of length [n]. *)
Variable sort_func : (nat -> nat -> bool) -> nat -> list (nat * nat).

Definition sort_Slice (x : bytes) (less : nat -> nat -> bool) : option bytes :=
  apply_swaps (sort_func less (List.length x)) x.

(** [createString], run on a fresh response.  [picks] is the runtime's
    choice of the map iteration order, [rd] the state of [rand.Reader].
    [result] is made with capacity [length]; the capacity arithmetic of
    [append] beyond it is not modelled (a run that outgrows [length] ends
    in the panic of the negative remainder or earlier). *)
Definition createString (picks : list nat) (req : CreateResourceRequest)
    (sensitive : bool) (rd : Reader) : outcome CreateResourceResponse :=
  let plan := Plan req in
  let resp := {| Diagnostics := Plan_diags req; State := None |} in
  if HasError (Diagnostics resp) then Returned resp else
  let length := Length plan in
  let chars := chars_of plan in
  let minMapping := minMapping_of plan in
  (* make([]byte, 0, length) *)
  if (length <? 0) || (maxAlloc <? length)
  then Panicked "makeslice: cap out of range" else
  match minLoop (range_map picks minMapping) [] rd with
  | Panic msg => Panicked msg
  | Err err => Returned (random_bytes_error resp err)
  | Val result rd1 =>
      match generateRandomBytes chars
              (wrap64 (length - Z.of_nat (List.length result))) rd1 with
      | Panic msg => Panicked msg
      | Err err => Returned (random_bytes_error resp err)
      | Val s rd2 =>
          let result := result ++ s in
          match rand_Read (List.length result) rd2 with
          | Panic msg => Panicked msg
          | Err err => Returned (random_bytes_error resp err)
          | Val order _ =>
              match sort_Slice result (order_less order) with
              | None => Panicked "reflect: slice index out of range"
              | Some result =>
                  let str := new_state plan sensitive (string_of_list_ascii result) in
                  Returned {| Diagnostics := Diagnostics resp; State := Some str |}
              end
          end
      end
  end.

End CreateString.

(** The outcome of a run that sets [result]. *)
Definition state_set (req : CreateResourceRequest) (sensitive : bool) (result : string)
  : outcome CreateResourceResponse :=
  Returned {| Diagnostics := Plan_diags req;
              State := Some (new_state (Plan req) sensitive result) |}.

(** [validateLength]: the sum is an int64 sum. *)
Definition validateLength (config : StringModel) : list Diagnostic :=
  let length := Length config in
  let minUpper := MinUpper config in
  let minLower := MinLower config in
  let minNumeric := MinNumeric config in
  let minSpecial := MinSpecial config in
  let sum := wrap64 (wrap64 (wrap64 (minUpper + minLower) + minNumeric) + minSpecial) in
  let msg := "length (" +:+ pretty length +:+
             ") must be >= min_upper + min_lower + min_numeric + min_special (" +:+
             pretty sum +:+ ")" in
  if length <? sum then AddError [] msg msg else [].

(** ** Counting by membership *)

Definition member (c : ascii) (cs : string) : bool :=
  existsb (Ascii.eqb c) (list_ascii_of_string cs).

Definition count_if (P : ascii -> bool) (l : bytes) : nat :=
  List.length (List.filter P l).

(** How many characters of [s] are members of the character set [cs]. *)
Definition count_class (cs : string) (s : string) : nat :=
  count_if (fun c => member c cs) (list_ascii_of_string s).

(** How many characters of [s] lie outside the character set [cs]. *)
Definition count_outside (cs : string) (s : string) : nat :=
  count_if (fun c => negb (member c cs)) (list_ascii_of_string s).

(** A generation spec as the data model has it: int64 values, non-negative
    minimums whose sum does not overflow. *)
Definition sum_mins (plan : StringModel) : Z :=
  MinUpper plan + MinLower plan + MinNumeric plan + MinSpecial plan.

Record wf_spec (plan : StringModel) : Prop := {
  wf_length : 0 <= Length plan < 2 ^ 63;
  wf_upper : 0 <= MinUpper plan;
  wf_lower : 0 <= MinLower plan;
  wf_numeric : 0 <= MinNumeric plan;
  wf_special : 0 <= MinSpecial plan;
  wf_sum : sum_mins plan < 2 ^ 63
}.

(** A valid spec: the length covers the minimums and the pool is not empty. *)
Record valid_spec (plan : StringModel) : Prop := {
  valid_wf : wf_spec plan;
  valid_length : sum_mins plan <= Length plan;
  valid_pool : chars_of plan <> ""
}.

(** What [sort.Slice] runs on a slice of at most 6 elements in every Go
    release: the older [quickSort_func] skips its loop and its shell pass,
    [pdqsort_func] takes its insertion-sort branch. *)
Definition sort_short (less : nat -> nat -> bool) (n : nat) : list (nat * nat) :=
  insertionSort_func less 0 n.

(** The sorting routine calls the swap function on indices of the slice. *)
Definition swaps_in_range (sort_func : (nat -> nat -> bool) -> nat -> list (nat * nat)) : Prop :=
  forall less n i j, In (i, j) (sort_func less n) -> (i < n)%nat /\ (j < n)%nat.

(** The number of characters a list of map entries asks for. *)
Definition needed (entries : list (string * Z)) : nat :=
  foldr (fun kv acc => (Z.to_nat kv.2 + acc)%nat) O entries.

(** [parts] are the slices the loop drew, one per entry: [v] members of [k]. *)
Definition drawn (entries : list (string * Z)) (parts : list bytes) : Prop :=
  Forall2 (fun kv s => 0 <= kv.2 /\ List.length s = Z.to_nat kv.2 /\
                       Forall (fun c => member c kv.1 = true) s) entries parts.

(** The reordering the specification describes, in its words: one order
    key per character, the buffer stably reordered by ascending key (of two
    characters with equal keys the one that came first stays first). *)
Fixpoint spec_insert_by_key (x : ascii * Z) (l : list (ascii * Z)) : list (ascii * Z) :=
  match l with
  | [] => [x]
  | y :: l' => if x.2 <=? y.2 then x :: y :: l' else y :: spec_insert_by_key x l'
  end.

Definition spec_reorder_by_key (buf : bytes) (keys : list Z) : bytes :=
  (foldr spec_insert_by_key [] (zip buf keys)).*1.

(** ** Requests used below *)

Definition request (length : Z) (upper lower number special : bool)
    (minUpper minLower minNumeric minSpecial : Z) (overrideSpecial : string)
  : CreateResourceRequest :=
  {| Plan := {| ID := ""; Keepers := ∅; Length := length;
                Special := special; Upper := upper; Lower := lower; Number := number;
                MinNumeric := minNumeric; MinUpper := minUpper; MinLower := minLower;
                MinSpecial := minSpecial; OverrideSpecial := overrideSpecial;
                Result := "" |};
     Plan_diags := [] |}.

(** The special set overridden with the digits, one digit required. *)
Definition digits_as_special : CreateResourceRequest :=
  request 1 true false true true 0 0 1 0 "0123456789".

(** Length 1 with two uppercase characters required. *)
Definition short_length : CreateResourceRequest :=
  request 1 true true true true 2 0 0 0 "".

(** Every class disabled, no minimum, length 1. *)
Definition all_disabled : CreateResourceRequest :=
  request 1 false false false false 0 0 0 0 "".

(** Only the special class enabled, the override left empty. *)
Definition empty_override : CreateResourceRequest :=
  request 1 false false false true 0 0 0 0 "".

(** Only the special class enabled, overridden with two characters. *)
Definition override_xy : CreateResourceRequest :=
  request 3 false false false true 0 0 0 1 "xy".

(** Three uppercase characters. *)
Definition three_upper : CreateResourceRequest :=
  request 3 true false false false 0 0 0 0 "".

(** Numeric disabled with a minimum of one, the special set overridden
    with the digits. *)
Definition disabled_digits_collide : CreateResourceRequest :=
  request 1 true false false false 0 0 1 0 "0123456789".

(** Lowercase disabled with a minimum of one, the special set overridden
    with a lowercase letter. *)
Definition disabled_lower_overlap : CreateResourceRequest :=
  request 1 false false false true 0 1 0 0 "a".

(** Numeric disabled with a minimum of two, letters enabled. *)
Definition disabled_digits : CreateResourceRequest :=
  request 3 true true false false 0 0 2 0 "".

(** The defaults with one character of each class required. *)
Definition one_of_each : CreateResourceRequest :=
  request 6 true true true true 1 1 1 1 "".

(** Length 0, no minimum. *)
Definition zero_length : CreateResourceRequest :=
  request 0 true true true true 0 0 0 0 "".

(** ** The seeded permutation engine *)

Module Shuffle.

Section Engine.

Context {Element : Type}.

(** The randomness source abstraction the engine depends on: a
    generator state offering a uniform integer over [[0, n)]; a
    generator derived from a seed; the process's secure source. *)
Variable Gen : Type.
Variable intn : Gen -> nat -> nat * Gen.
Variable seeded : string -> Gen.
Variable Env : Type.
Variable secure : Env -> Gen.

Record PermutationSpec : Type := {
  input : list Element;
  outputLength : option nat;
  seed : string
}.

Definition exchange (l : list Element) (i j : nat) : list Element :=
  match l !! i, l !! j with
  | Some x, Some y => <[i := y]> (<[j := x]> l)
  | _, _ => l
  end.

(** Modelled from the spec: the shuffle's implementation is not among
    the sources (only its acceptance tests are).  Step 3 of section
    4.2: for index [i] from last to first, swap element [i] with a
    uniformly chosen element at index [0..i] inclusive.  [fisher_yates
    n] runs the indices [n-1] down to [0]. *)
Fixpoint fisher_yates (n : nat) (l : list Element) (g : Gen) : list Element * Gen :=
  match n with
  | O => (l, g)
  | S i =>
      let '(j, g') := intn g (S i) in
      fisher_yates i (exchange l i (j mod S i)) g'
  end.

(** Modelled from the spec: steps 4 and 5 of section 4.2 (the
    implementation is not among the sources).  A pass is a full shuffle
    of the input; further passes, each drawing on from the same
    generator, are appended until [remaining] elements are produced. *)
Fixpoint passes (fuel : nat) (inp : list Element) (remaining : nat) (g : Gen)
  : list Element :=
  match fuel with
  | O => []
  | S fuel' =>
      let '(p, g') := fisher_yates (List.length inp) inp g in
      if (remaining <=? List.length inp)%nat then take remaining p
      else p ++ passes fuel' inp (remaining - List.length inp) g'
  end.

(** Modelled from the spec: the contract [Shuffle] of section 4.2,
    whose implementation is not among the sources.  An unset output
    length defaults to the input length; an empty or absent seed means
    the secure source, any other seed the generator derived from it. *)
Definition Shuffle (env : Env) (spec : PermutationSpec) : list Element :=
  let n := default (List.length (input spec)) (outputLength spec) in
  if (n =? 0)%nat || (List.length (input spec) =? 0)%nat then []
  else
    let g := if String.eqb (seed spec) "" then secure env else seeded (seed spec) in
    passes n (input spec) n g.

End Engine.

End Shuffle.

(** ** string.go: plan modifiers and import *)

(** [types.Bool], [types.Int64] and [types.String]. *)
Record TBool : Type := { BoolUnknown : bool; BoolNull : bool; BoolValue : bool }.
Record TInt64 : Type := { Int64Unknown : bool; Int64Null : bool; Int64Value : Z }.
Record TString : Type := { StringUnknown : bool; StringNull : bool; StringValue : string }.

(** [defaultBool.Modify], [defaultInt.Modify] and
    [defaultOverrideSpecial.Modify]: [AttributeConfig] is the request's
    configured value, [AttributePlan] the planned value the response
    starts with; the result is the response's [AttributePlan]. *)
Definition defaultBool_Modify (AttributeConfig AttributePlan : TBool) : TBool :=
  if BoolNull AttributeConfig
  then {| BoolUnknown := false; BoolNull := false; BoolValue := true |}
  else AttributePlan.

Definition defaultInt_Modify (AttributeConfig AttributePlan : TInt64) : TInt64 :=
  if Int64Null AttributeConfig
  then {| Int64Unknown := false; Int64Null := false; Int64Value := 0 |}
  else AttributePlan.

Definition defaultOverrideSpecial_Modify (AttributeConfig AttributePlan : TString)
  : TString :=
  if StringNull AttributeConfig
  then {| StringUnknown := false; StringNull := false; StringValue := "" |}
  else AttributePlan.

(** The value attributes of the schema of [getStringSchema]. *)
Record StringAttributes : Type := {
  a_length : TInt64;
  a_special : TBool;
  a_upper : TBool;
  a_lower : TBool;
  a_number : TBool;
  a_min_numeric : TInt64;
  a_min_upper : TInt64;
  a_min_lower : TInt64;
  a_min_special : TInt64;
  a_override_special : TString
}.

(** The value-changing plan modifiers the schema attaches to each
    attribute: none on [length], [defaultBool] on the four flags,
    [defaultInt] on the four minimums, [defaultOverrideSpecial] on the
    override. *)
Definition planModifiers (config plan : StringAttributes) : StringAttributes :=
  {| a_length := a_length plan;
     a_special := defaultBool_Modify (a_special config) (a_special plan);
     a_upper := defaultBool_Modify (a_upper config) (a_upper plan);
     a_lower := defaultBool_Modify (a_lower config) (a_lower plan);
     a_number := defaultBool_Modify (a_number config) (a_number plan);
     a_min_numeric := defaultInt_Modify (a_min_numeric config) (a_min_numeric plan);
     a_min_upper := defaultInt_Modify (a_min_upper config) (a_min_upper plan);
     a_min_lower := defaultInt_Modify (a_min_lower config) (a_min_lower plan);
     a_min_special := defaultInt_Modify (a_min_special config) (a_min_special plan);
     a_override_special :=
       defaultOverrideSpecial_Modify (a_override_special config)
         (a_override_special plan) |}.

(** What [createString] reads off the planned attributes: their [Value]. *)
Definition model_of (keepers : gmap string string) (a : StringAttributes) : StringModel :=
  {| ID := ""; Keepers := keepers;
     Length := Int64Value (a_length a);
     Special := BoolValue (a_special a);
     Upper := BoolValue (a_upper a);
     Lower := BoolValue (a_lower a);
     Number := BoolValue (a_number a);
     MinNumeric := Int64Value (a_min_numeric a);
     MinUpper := Int64Value (a_min_upper a);
     MinLower := Int64Value (a_min_lower a);
     MinSpecial := Int64Value (a_min_special a);
     OverrideSpecial := StringValue (a_override_special a);
     Result := "" |}.

Record ImportResourceStateResponse : Type := {
  ImportDiagnostics : list Diagnostic;
  ImportState : option StringModel
}.

(** [importString]: the state is the struct literal with [ID] and [Result]
    set and every other field at its zero value. *)
Definition importString (id : string) (sensitive : bool) : ImportResourceStateResponse :=
  let state :=
    {| ID := if sensitive then "none" else id;
       Keepers := ∅;
       Length := 0;
       Special := false; Upper := false; Lower := false; Number := false;
       MinNumeric := 0; MinUpper := 0; MinLower := 0; MinSpecial := 0;
       OverrideSpecial := "";
       Result := id |} in
  {| ImportDiagnostics := []; ImportState := Some state |}.

(** ** resource_shuffle_test.go: testAccResourceShuffleCheck *)

(** [terraform.InstanceState] and the resources of the root module. *)
Record InstanceState : Type := {
  PrimaryID : string;
  Attributes : gmap string string
}.

(** Indexing a Go map: the zero value for a missing key. *)
Definition attr (attrs : gmap string string) (key : string) : string :=
  default "" (attrs !! key).

(** The errors of the check: the format of [fmt.Errorf] with its arguments. *)
Inductive check_error : Type :=
| NotFound (id : string)
| NoIDSet
| WrongCount (gotLen wantLen : string)
| WrongItem (i : nat) (got want : string).

(** [for i, want := range wants { ... }], from index [i] on. *)
Fixpoint check_items (attrs : gmap string string) (i : nat) (wants : list string)
  : option check_error :=
  match wants with
  | [] => None
  | want :: rest =>
      let key := "result." +:+ pretty i in
      let got := attr attrs key in
      if String.eqb got want then check_items attrs (S i) rest
      else Some (WrongItem i got want)
  end.

Definition testAccResourceShuffleCheck (id : string) (wants : list string)
    (resources : gmap string InstanceState) : option check_error :=
  match resources !! id with
  | None => Some (NotFound id)
  | Some rs =>
      if String.eqb (PrimaryID rs) "" then Some NoIDSet
      else
        let attrs := Attributes rs in
        let gotLen := attr attrs "result.#" in
        let wantLen := pretty (List.length wants) in
        if String.eqb gotLen wantLen then check_items attrs 0 wants
        else Some (WrongCount gotLen wantLen)
  end.

(** ** resource_password.go: resourcePasswordStateUpgradeV0 *)

(** The dynamic values of a raw state. *)
Inductive interface : Type :=
| IString (s : string)
| IBool (b : bool)
| INumber (z : Z)
| INil.

Inductive upgrade_error : Type :=
| StateIsNil
| ResultNotString (v : option interface)
| GenerateHashError (err : error).

Section PasswordUpgrade.

(** [bcrypt.GenerateFromPassword], of golang.org/x/crypto: the hash of this
    call, or an error. *)
Variable GenerateFromPassword : string -> Z -> string + error.

Definition DefaultCost : Z := 10.

(** [generateHash]: the hash as a string, with the library's error. *)
Definition generateHash (toHash : string) : string + error :=
  GenerateFromPassword toHash DefaultCost.

(** [resourcePasswordStateUpgradeV0]; a nil map is [None]. *)
Definition resourcePasswordStateUpgradeV0 (rawState : option (gmap string interface))
  : gmap string interface + upgrade_error :=
  match rawState with
  | None => inr StateIsNil
  | Some m =>
      match m !! "result" with
      | Some (IString result) =>
          match generateHash result with
          | inr err => inr (GenerateHashError err)
          | inl hash => inl (<["bcrypt_hash" := IString hash]> m)
          end
      | v => inr (ResultNotString v)
      end
  end.

End PasswordUpgrade.

(** ** Further inputs used below *)

(** A configuration that sets nothing but the length, and the plan the
    modifiers start from (the optional attributes still unknown). *)
Definition null_bool : TBool :=
  {| BoolUnknown := false; BoolNull := true; BoolValue := false |}.
Definition null_int : TInt64 :=
  {| Int64Unknown := false; Int64Null := true; Int64Value := 0 |}.
Definition null_string : TString :=
  {| StringUnknown := false; StringNull := true; StringValue := "" |}.
Definition unknown_bool : TBool :=
  {| BoolUnknown := true; BoolNull := false; BoolValue := false |}.
Definition unknown_int : TInt64 :=
  {| Int64Unknown := true; Int64Null := false; Int64Value := 0 |}.
Definition unknown_string : TString :=
  {| StringUnknown := true; StringNull := false; StringValue := "" |}.

Definition length_only (length : Z) (optional_bool : TBool) (optional_int : TInt64)
    (optional_string : TString) : StringAttributes :=
  {| a_length := {| Int64Unknown := false; Int64Null := false; Int64Value := length |};
     a_special := optional_bool; a_upper := optional_bool;
     a_lower := optional_bool; a_number := optional_bool;
     a_min_numeric := optional_int; a_min_upper := optional_int;
     a_min_lower := optional_int; a_min_special := optional_int;
     a_override_special := optional_string |}.

(** The state the acceptance test of the shuffle expects, as attributes. *)
Definition shuffled_state : gmap string InstanceState :=
  {[ "random_shuffle.default_length" :=
       {| PrimaryID := "-";
          Attributes :=
            list_to_map [("result.#", "5"); ("result.0", "a"); ("result.1", "c");
                         ("result.2", "b"); ("result.3", "e"); ("result.4", "d")] |} ]}.

(** A version 0 state of the password resource. *)
Definition old_password_state : gmap string interface :=
  <["length" := INumber 16]> {["result" := IString "hunter2"]}.

(** A toy stand-in for the hash function. *)
Definition toy_hash (password : string) (cost : Z) : string + error :=
  if String.eqb password "" then inr "empty password"
  else inl ("$2a$" +:+ pretty cost +:+ "$" +:+ password).

(** ** The Go side, lemmas *)

Section GoFacts.

Lemma wrap64_id z : int64_range z -> wrap64 z = z.
Proof.
  unfold int64_range, wrap64. intros H.
  rewrite Z.mod_small; lia.
Qed.

Lemma get_member n (cs : string) :
  (n < String.length cs)%nat ->
  exists c, String.get n cs = Some c /\ member c cs = true.
Proof.
  revert n. induction cs as [|a cs IH]; simpl; intros n Hn; [lia|].
  destruct n as [|n].
  - exists a. split; [done|]. unfold member. simpl. by rewrite Ascii.eqb_refl.
  - destruct (IH n) as (c & Hc & Hm); [lia|].
    exists c. split; [done|]. unfold member in *. simpl. rewrite Hm.
    by rewrite orb_true_r.
Qed.

(** [io.ReadFull]: [n] bytes off the front, or an error of the reader when
    it holds fewer; never a panic. *)
Lemma ReadFull_cases n rd :
  (exists bytes rd',
      ReadFull n rd = Val bytes rd' /\ List.length bytes = n /\
      Forall (fun b => 0 <= b < 256) bytes /\
      List.length rd = (n + List.length rd')%nat) \/
  (exists e, ReadFull n rd = Err e /\ reader_error e /\ (List.length rd < n)%nat).
Proof.
  unfold ReadFull. destruct n as [|n].
  { left. exists [], rd. by repeat split. }
  destruct rd as [|r rd].
  { right. exists EOF. split; [done|]. split; [by left|simpl; lia]. }
  destruct (Nat.ltb_spec (List.length (r :: rd)) (S n)) as [Hlt|Hge].
  - right. exists ErrUnexpectedEOF. split; [done|]. split; [by right|done].
  - left. eexists _, _. split; [done|].
    rewrite length_fmap, length_take, length_drop. split; [lia|]. split; [|lia].
    apply Forall_fmap, Forall_forall. intros x _. simpl.
    apply Z.mod_pos_bound. lia.
Qed.

Lemma SetBytes_nonneg bytes acc :
  0 <= acc -> Forall (fun b => 0 <= b) bytes ->
  0 <= fold_left (fun a b => a * 256 + b) bytes acc.
Proof.
  intros Hacc Hb. revert acc Hacc.
  induction Hb as [|b bytes Hb0 _ IH]; intros acc Hacc; simpl; [done|].
  apply IH. lia.
Qed.

Lemma Int_candidate_nonneg b bytes :
  Forall (fun x => 0 <= x < 256) bytes -> 0 <= Int_candidate b bytes.
Proof.
  intros Hb. destruct Hb as [|b0 rest Hb0 Hrest]; [done|].
  unfold Int_candidate, SetBytes. apply SetBytes_nonneg; [lia|].
  constructor.
  - apply Z.land_nonneg. left. lia.
  - eapply Forall_impl; [exact Hrest|]. simpl. lia.
Qed.

Lemma bitLen_pos n : 0 < n -> 0 < bitLen n.
Proof.
  intros Hn. unfold bitLen. destruct (Z.leb_spec n 0); [lia|].
  pose proof (Z.log2_nonneg n). lia.
Qed.

Lemma Int_bytes_pos max : 2 <= max -> (1 <= Int_bytes max)%nat.
Proof.
  intros Hmax. unfold Int_bytes.
  pose proof (bitLen_pos (max - 1) ltac:(lia)) as Hb.
  assert (1 <= (bitLen (max - 1) + 7) / 8); [|lia].
  apply Z.div_le_lower_bound; lia.
Qed.

(** One run of the rejection loop of [rand.Int]: a value below [max] and
    at least one round of bytes taken, or an error of the reader. *)
Lemma Int_loop_cases max fuel rd :
  (exists n rd',
      Int_loop max fuel rd = Val n rd' /\ 0 <= n < max /\
      (List.length rd' + Int_bytes max <= List.length rd)%nat) \/
  (exists e, Int_loop max fuel rd = Err e /\ reader_error e).
Proof.
  revert rd. induction fuel as [|fuel IH]; intros rd; simpl;
    destruct (ReadFull_cases (Int_bytes max) rd)
      as [(bytes & rd' & -> & Hlen & Hb & Hrd)|(e & -> & He & _)];
    try (right; by exists e).
  - pose proof (Int_candidate_nonneg (Int_bits max) bytes Hb) as Hc.
    destruct (Z.ltb_spec (Int_candidate (Int_bits max) bytes) max).
    + left. eexists _, _. split; [done|]. split; [lia|lia].
    + right. exists EOF. split; [done|by left].
  - pose proof (Int_candidate_nonneg (Int_bits max) bytes Hb) as Hc.
    destruct (Z.ltb_spec (Int_candidate (Int_bits max) bytes) max).
    + left. eexists _, _. split; [done|]. split; [lia|lia].
    + destruct (IH rd') as [(n & rd'' & -> & Hn & Hrd')|(e & -> & He)].
      * left. eexists _, _. split; [done|]. split; [done|lia].
      * right. by exists e.
Qed.

(** The fuel of the loop is immaterial once it covers the reader: the
    reader is exhausted before the fuel is. *)
Lemma Int_loop_fuel max fuel1 fuel2 rd :
  2 <= max ->
  (List.length rd <= fuel1)%nat -> (List.length rd <= fuel2)%nat ->
  Int_loop max fuel1 rd = Int_loop max fuel2 rd.
Proof.
  intros Hmax. pose proof (Int_bytes_pos max Hmax) as Hk.
  revert fuel2 rd. induction fuel1 as [|fuel1 IH]; intros fuel2 rd H1 H2.
  - destruct rd; [|simpl in H1; lia].
    destruct (Int_bytes max) as [|k] eqn:Ek; [lia|].
    destruct fuel2; simpl; by rewrite Ek.
  - destruct fuel2 as [|fuel2].
    + destruct rd; [|simpl in H2; lia].
      destruct (Int_bytes max) as [|k] eqn:Ek; [lia|]. simpl. by rewrite Ek.
    + simpl.
      destruct (ReadFull_cases (Int_bytes max) rd)
        as [(bytes & rd' & -> & _ & _ & Hrd)|(e & -> & _)]; [|done].
      destruct (_ <? _); [done|]. apply IH; lia.
Qed.

Lemma rand_Int_cases max rd :
  0 < max ->
  (exists n rd',
      rand_Int max rd = Val n rd' /\ 0 <= n < max /\
      (List.length rd' <= List.length rd)%nat /\
      (2 <= max -> (List.length rd' < List.length rd)%nat)) \/
  (exists e, rand_Int max rd = Err e /\ reader_error e).
Proof.
  intros Hmax. unfold rand_Int.
  destruct (Z.leb_spec max 0) as [?|_]; [lia|].
  destruct (Z.eqb_spec (bitLen (max - 1)) 0) as [Hb|Hb].
  - left. exists 0, rd. split; [done|]. split; [lia|]. split; [done|].
    intros H2. pose proof (bitLen_pos (max - 1) ltac:(lia)). lia.
  - destruct (Int_loop_cases max (List.length rd) rd)
      as [(n & rd' & -> & Hn & Hrd)|(e & -> & He)].
    + left. exists n, rd'. split; [done|]. split; [done|]. split; [lia|].
      intros H2. pose proof (Int_bytes_pos max H2). lia.
    + right. by exists e.
Qed.

Lemma rand_Int_nonpositive max rd :
  max <= 0 -> rand_Int max rd = Panic "crypto/rand: argument to Int is <= 0".
Proof. intros Hmax. unfold rand_Int. by destruct (Z.leb_spec max 0); [|lia]. Qed.

(** Reading zero bytes off the reader. *)
Lemma ReadFull_zeros k rest :
  ReadFull k (replicate k 0 ++ rest) = Val (replicate k 0) rest.
Proof.
  unfold ReadFull. destruct k as [|k]; [done|].
  change (replicate (S k) 0 ++ rest) with (0 :: (replicate k 0 ++ rest)).
  destruct (Nat.ltb_spec (List.length (0 :: (replicate k 0 ++ rest))) (S k)) as [Hlt|_].
  { simpl in Hlt. rewrite length_app, length_replicate in Hlt. lia. }
  change (0 :: (replicate k 0 ++ rest)) with (replicate (S k) 0 ++ rest).
  rewrite take_app_length', drop_app_length' by (by rewrite length_replicate).
  by rewrite fmap_replicate.
Qed.

Lemma Int_candidate_zeros b k : Int_candidate b (replicate k 0) = 0.
Proof.
  destruct k as [|k]; [done|]. unfold Int_candidate, SetBytes. simpl.
  induction k as [|k IH]; [done|]. simpl. exact IH.
Qed.

(** Zero bytes are never rejected: [rand.Int] returns 0 after one round. *)
Lemma rand_Int_zeros max rest :
  0 < max -> rand_Int max (replicate (Int_bytes max) 0 ++ rest) = Val 0 rest.
Proof.
  intros Hmax. unfold rand_Int.
  destruct (Z.leb_spec max 0) as [?|_]; [lia|].
  destruct (Z.eqb_spec (bitLen (max - 1)) 0) as [Hb|Hb].
  - unfold Int_bytes. rewrite Hb. done.
  - destruct (List.length _); simpl; rewrite ReadFull_zeros, Int_candidate_zeros;
      by destruct (Z.ltb_spec 0 max); [|lia].
Qed.

Lemma swap_Permutation {A} (l l' : list A) i j :
  swap l i j = Some l' -> l' ≡ₚ l.
Proof.
  unfold swap. destruct (l !! i) as [x|] eqn:Hi; [|done].
  destruct (l !! j) as [y|] eqn:Hj; [|done].
  intros [= <-]. by apply Permutation_insert_swap.
Qed.

Lemma swap_in_range {A} (l : list A) i j :
  (i < List.length l)%nat -> (j < List.length l)%nat -> is_Some (swap l i j).
Proof.
  intros [x Hx]%lookup_lt_is_Some_2 [y Hy]%lookup_lt_is_Some_2.
  unfold swap. rewrite Hx, Hy. by eexists.
Qed.

Lemma apply_swaps_Permutation {A} sw (l l' : list A) :
  apply_swaps sw l = Some l' -> l' ≡ₚ l.
Proof.
  revert l. induction sw as [|[i j] sw IH]; simpl; intros l.
  - by intros [= ->].
  - destruct (swap l i j) as [l1|] eqn:Hs; [|done].
    intros H. rewrite (IH _ H). by eapply swap_Permutation.
Qed.

Lemma apply_swaps_in_range {A} sw (l : list A) :
  Forall (fun ij => (ij.1 < List.length l)%nat /\ (ij.2 < List.length l)%nat) sw ->
  is_Some (apply_swaps sw l).
Proof.
  revert l. induction sw as [|[i j] sw IH]; simpl; intros l Hf.
  - by eexists.
  - inversion Hf as [|? ? [Hi Hj] Hf']; subst. simpl in *.
    destruct (swap_in_range l i j Hi Hj) as [l1 Hl1]. rewrite Hl1.
    apply IH. apply swap_Permutation, Permutation_length in Hl1.
    by rewrite Hl1.
Qed.

Lemma insertion_inner_in_range less a j i1 i2 :
  In (i1, i2) (insertion_inner less a j) -> (i1 <= j)%nat /\ (i2 < i1)%nat.
Proof.
  induction j as [|j IH]; simpl; [done|].
  destruct (_ && _); [|done].
  intros [[= <- <-]|Hin]; [lia|]. apply IH in Hin. lia.
Qed.

Lemma sort_short_in_range : swaps_in_range sort_short.
Proof.
  intros less n i j. unfold sort_short, insertionSort_func.
  rewrite in_flat_map. intros (k & Hk%in_seq & Hin).
  apply insertion_inner_in_range in Hin. lia.
Qed.

Lemma insert_at_Permutation {A} n (x : A) l : insert_at n x l ≡ₚ x :: l.
Proof.
  revert n. induction l as [|y l IH]; intros [|n]; simpl; try done.
  by rewrite IH, Permutation_swap.
Qed.

Lemma permute_by_Permutation {A} picks (l : list A) : permute_by picks l ≡ₚ l.
Proof.
  revert picks. induction l as [|x l IH]; intros picks; simpl; [done|].
  by rewrite insert_at_Permutation, IH.
Qed.

Lemma count_if_app P l1 l2 :
  count_if P (l1 ++ l2) = (count_if P l1 + count_if P l2)%nat.
Proof. unfold count_if. by rewrite List.filter_app, length_app. Qed.

Lemma count_if_Permutation P l1 l2 : l1 ≡ₚ l2 -> count_if P l1 = count_if P l2.
Proof.
  unfold count_if. induction 1 as [|x l1 l2 _ IH|x y l|l1 l2 l3 _ IH1 _ IH2]; simpl.
  - done.
  - destruct (P x); simpl; by rewrite IH.
  - by destruct (P x), (P y).
  - by rewrite IH1.
Qed.

Lemma count_if_all P l :
  Forall (fun c => P c = true) l -> count_if P l = List.length l.
Proof.
  unfold count_if. induction 1 as [|c l Hc _ IH]; simpl; [done|].
  rewrite Hc. simpl. by rewrite IH.
Qed.

Lemma count_if_le P l : (count_if P l <= List.length l)%nat.
Proof. unfold count_if. apply List.filter_length_le. Qed.

End GoFacts.

(** ** generateRandomBytes and the minimum loop *)

Section Draws.

Lemma get_Some_member n (cs : string) c :
  String.get n cs = Some c -> member c cs = true.
Proof.
  revert n. induction cs as [|a cs IH]; simpl; intros n; [done|].
  unfold member in *. simpl. destruct n as [|n].
  - intros [= ->]. by rewrite Ascii.eqb_refl.
  - intros H%IH. rewrite H. apply orb_true_r.
Qed.

Lemma len_pos (cs : string) : cs <> "" -> 0 < len cs.
Proof. unfold len. destruct cs; [done|]. simpl. lia. Qed.

(** One draw: [rand.Int] over the set's size, then the byte at the index.
    On a non-empty set it is a member of the set or an error of the
    reader. *)
Lemma draw_cases (cs : string) rd :
  cs <> "" ->
  (exists c rd',
      (let* idx := rand_Int (len cs) in index cs idx) rd = Val c rd' /\
      member c cs = true /\
      (List.length rd' <= List.length rd)%nat /\
      (2 <= len cs -> (List.length rd' < List.length rd)%nat)) \/
  (exists e,
      (let* idx := rand_Int (len cs) in index cs idx) rd = Err e /\
      reader_error e).
Proof.
  intros Hne. unfold bind.
  destruct (rand_Int_cases (len cs) rd (len_pos cs Hne))
    as [(n & rd' & -> & Hn & Hrd)|(e & -> & He)]; [|right; by exists e].
  left. destruct (get_member (Z.to_nat n) cs) as (c & Hc & Hm).
  { unfold len in Hn. lia. }
  exists c, rd'. unfold index.
  destruct (Z.ltb_spec n 0); [lia|]. rewrite Hc. done.
Qed.

Lemma draw_inv (cs : string) rd c rd' :
  (let* idx := rand_Int (len cs) in index cs idx) rd = Val c rd' ->
  member c cs = true /\
  (List.length rd' <= List.length rd)%nat /\
  (2 <= len cs -> (List.length rd' < List.length rd)%nat).
Proof.
  destruct (decide (cs = "")) as [->|Hne]; [done|].
  destruct (draw_cases cs rd Hne) as [(c0 & rd0 & -> & H)|(e & -> & _)]; [|done].
  by intros [= <- <-].
Qed.

Lemma fill_S (cs : string) n rd :
  fill cs (S n) rd =
  match (let* idx := rand_Int (len cs) in index cs idx) rd with
  | Val c rd0 =>
      match fill cs n rd0 with
      | Val rest rd1 => Val (c :: rest) rd1
      | Err e => Err e
      | Panic msg => Panic msg
      end
  | Err e => Err e
  | Panic msg => Panic msg
  end.
Proof.
  cbn [fill]. unfold bind, ret.
  destruct (rand_Int (len cs) rd) as [idx rd0| |]; [|done|done].
  by destruct (index cs idx rd0).
Qed.

Lemma fill_inv (cs : string) n rd s rd' :
  fill cs n rd = Val s rd' ->
  List.length s = n /\ Forall (fun c => member c cs = true) s /\
  (List.length rd' <= List.length rd)%nat /\
  (2 <= len cs -> (n + List.length rd' <= List.length rd)%nat).
Proof.
  revert rd s rd'. induction n as [|n IH]; intros rd s rd'.
  - intros [= <- <-]. by repeat split.
  - rewrite fill_S.
    destruct ((let* idx := rand_Int (len cs) in index cs idx) rd)
      as [c rd0| |] eqn:Hdraw; [|done|done].
    apply draw_inv in Hdraw as (Hm & Hle & Hlt).
    destruct (fill cs n rd0) as [rest rd1| |] eqn:Hfill; [|done|done].
    intros [= <- <-].
    destruct (IH _ _ _ Hfill) as (Hl & Hf & Hle' & Hlt').
    split; [simpl; by rewrite Hl|]. split; [by constructor|].
    split; [lia|]. intros H2. specialize (Hlt H2). specialize (Hlt' H2). lia.
Qed.

(** On a non-empty set [fill] never panics. *)
Lemma fill_cases (cs : string) n rd :
  cs <> "" ->
  (exists s rd', fill cs n rd = Val s rd') \/
  (exists e, fill cs n rd = Err e /\ reader_error e).
Proof.
  intros Hne. revert rd. induction n as [|n IH]; intros rd.
  - left. by exists [], rd.
  - rewrite fill_S.
    destruct (draw_cases cs rd Hne) as [(c & rd0 & -> & _)|(e & -> & He)].
    + destruct (IH rd0) as [(s & rd1 & ->)|(e & -> & He)].
      * left. by eexists _, _.
      * right. by exists e.
    + right. by exists e.
Qed.

Lemma fill_Err (cs : string) n rd e : fill cs n rd = Err e -> reader_error e.
Proof.
  destruct (decide (cs = "")) as [->|Hne].
  - destruct n; done.
  - destruct (fill_cases cs n rd Hne) as [(s & rd' & ->)|(e' & -> & He)]; [done|].
    by intros [= <-].
Qed.

Lemma fill_empty_panics n rd :
  fill "" (S n) rd = Panic "crypto/rand: argument to Int is <= 0".
Proof. done. Qed.

(** On a reader of zero bytes every draw is the first character of the
    set. *)
Lemma fill_zeros (cs : string) c0 n rest :
  String.get 0 cs = Some c0 ->
  fill cs n (replicate (n * Int_bytes (len cs)) 0 ++ rest) = Val (replicate n c0) rest.
Proof.
  intros Hc0. assert (cs <> "") as Hne by (by destruct cs).
  induction n as [|n IH]; [done|].
  rewrite fill_S. cbn [Nat.mul]. rewrite replicate_add, <- app_assoc.
  unfold bind. rewrite (rand_Int_zeros _ _ (len_pos cs Hne)).
  unfold index. change (Z.to_nat 0) with O. rewrite Hc0. unfold ret.
  change (0 <? 0) with false. cbv beta iota. by rewrite IH.
Qed.

Lemma generateRandomBytes_inv (cs : string) v rd s rd' :
  generateRandomBytes cs v rd = Val s rd' ->
  0 <= v <= maxAlloc /\ List.length s = Z.to_nat v /\
  Forall (fun c => member c cs = true) s /\
  ((List.length rd' <= List.length rd)%nat /\
   (2 <= len cs -> (Z.to_nat v + List.length rd' <= List.length rd)%nat)).
Proof.
  unfold generateRandomBytes.
  destruct (Z.ltb_spec v 0) as [Hv|Hv]; [done|].
  destruct (Z.ltb_spec maxAlloc v) as [Hm|Hm]; [done|].
  intros (Hl & Hf & Hrd)%fill_inv. done.
Qed.

Lemma generateRandomBytes_negative (cs : string) v rd :
  v < 0 -> generateRandomBytes cs v rd = Panic "makeslice: len out of range".
Proof.
  intros Hv. unfold generateRandomBytes. by destruct (Z.ltb_spec v 0) as [?|?]; [|lia].
Qed.

Lemma generateRandomBytes_too_large (cs : string) v rd :
  maxAlloc < v -> generateRandomBytes cs v rd = Panic "makeslice: len out of range".
Proof.
  intros Hv. unfold generateRandomBytes.
  destruct (Z.ltb_spec maxAlloc v) as [?|?]; [|lia]. by rewrite orb_true_r.
Qed.

Lemma generateRandomBytes_zero (cs : string) rd :
  generateRandomBytes cs 0 rd = Val [] rd.
Proof. done. Qed.

Lemma generateRandomBytes_empty_pool v rd :
  0 < v <= maxAlloc ->
  generateRandomBytes "" v rd = Panic "crypto/rand: argument to Int is <= 0".
Proof.
  intros Hv. unfold generateRandomBytes.
  destruct (Z.ltb_spec v 0) as [?|?]; [lia|].
  destruct (Z.ltb_spec maxAlloc v) as [?|?]; [lia|]. simpl.
  destruct (Z.to_nat v) eqn:E; [lia|]. apply fill_empty_panics.
Qed.

Lemma generateRandomBytes_cases (cs : string) v rd :
  cs <> "" -> 0 <= v <= maxAlloc ->
  (exists s rd', generateRandomBytes cs v rd = Val s rd') \/
  (exists e, generateRandomBytes cs v rd = Err e /\ reader_error e).
Proof.
  intros Hne Hv. unfold generateRandomBytes.
  destruct (Z.ltb_spec v 0) as [?|?]; [lia|].
  destruct (Z.ltb_spec maxAlloc v) as [?|?]; [lia|]. simpl.
  by apply fill_cases.
Qed.

Lemma generateRandomBytes_Err (cs : string) v rd e :
  generateRandomBytes cs v rd = Err e -> reader_error e.
Proof.
  unfold generateRandomBytes. destruct (_ || _); [done|]. apply fill_Err.
Qed.

Lemma generateRandomBytes_zeros (cs : string) c0 v rest :
  String.get 0 cs = Some c0 -> 0 <= v <= maxAlloc ->
  generateRandomBytes cs v (replicate (Z.to_nat v * Int_bytes (len cs)) 0 ++ rest) =
  Val (replicate (Z.to_nat v) c0) rest.
Proof.
  intros Hc0 Hv. unfold generateRandomBytes.
  destruct (Z.ltb_spec v 0) as [?|?]; [lia|].
  destruct (Z.ltb_spec maxAlloc v) as [?|?]; [lia|]. simpl.
  by apply fill_zeros.
Qed.

Lemma minLoop_inv entries init rd res rd' :
  minLoop entries init rd = Val res rd' ->
  exists parts, res = init ++ concat parts /\ drawn entries parts /\
                (List.length rd' <= List.length rd)%nat.
Proof.
  revert init rd. induction entries as [|[k v] entries IH]; simpl; intros init rd.
  - intros [= <- <-]. exists []. simpl. rewrite app_nil_r. split; [done|].
    split; [constructor|done].
  - unfold bind.
    destruct (generateRandomBytes k v rd) as [s rd0| |] eqn:Hgen; try done.
    intros (parts & -> & Hd & Hrd)%IH.
    apply generateRandomBytes_inv in Hgen as (Hv & Hl & Hf & Hrd0 & _).
    exists (s :: parts). simpl. rewrite <- app_assoc. split; [done|].
    split; [|lia]. constructor; [|done]. simpl. split; [lia|done].
Qed.

Lemma minLoop_Err entries init rd e :
  minLoop entries init rd = Err e -> reader_error e.
Proof.
  revert init rd. induction entries as [|[k v] entries IH]; simpl; intros init rd.
  - done.
  - unfold bind.
    destruct (generateRandomBytes k v rd) as [s rd0| |] eqn:Hgen; [|by intros [= <-]; eapply generateRandomBytes_Err|done].
    apply IH.
Qed.

Lemma drawn_length entries parts :
  drawn entries parts -> List.length (concat parts) = needed entries.
Proof.
  induction 1 as [|kv s entries parts (_ & Hl & _) _ IH]; simpl; [done|].
  rewrite length_app. lia.
Qed.

(** Every entry contributes its [v] members of [k]. *)
Lemma drawn_count entries parts k v (P : ascii -> bool) :
  drawn entries parts -> (k, v) ∈ entries ->
  (forall c, member c k = true -> P c = true) ->
  (Z.to_nat v <= count_if P (concat parts))%nat.
Proof.
  intros Hd Hin HP. induction Hd as [|kv s entries parts (_ & Hl & Hf) _ IH]; simpl.
  - by apply elem_of_nil in Hin.
  - rewrite count_if_app. apply elem_of_cons in Hin as [<-|Hin].
    + simpl in *. rewrite <- Hl, <- (count_if_all P s); [lia|].
      eapply Forall_impl; [exact Hf|]. exact HP.
    + specialize (IH Hin). lia.
Qed.

(** Every drawn character is a member of the set of an entry with a
    positive count. *)
Lemma drawn_source entries parts c :
  drawn entries parts -> c ∈ concat parts ->
  exists k v, (k, v) ∈ entries /\ 0 < v /\ member c k = true.
Proof.
  induction 1 as [|[k v] s entries parts (Hv & Hl & Hf) _ IH]; simpl.
  - by intros ?%elem_of_nil.
  - intros [Hin|Hin]%elem_of_app.
    + exists k, v. split; [left|]. simpl in *. split.
      * destruct s; [by apply elem_of_nil in Hin|]. simpl in Hl. lia.
      * rewrite Forall_forall in Hf. by apply Hf.
    + destruct (IH Hin) as (k' & v' & ? & ? & ?). exists k', v'.
      split; [by right|done].
Qed.

Lemma needed_Permutation l1 l2 : l1 ≡ₚ l2 -> needed l1 = needed l2.
Proof.
  induction 1 as [|x l1 l2 _ IH|x y l|l1 l2 l3 _ IH1 _ IH2]; simpl; lia.
Qed.

Lemma needed_insert (m : gmap string Z) k v :
  (needed (map_to_list (<[k := v]> m)) <= Z.to_nat v + needed (map_to_list m))%nat.
Proof.
  destruct (m !! k) as [x|] eqn:Hk.
  - rewrite <- insert_delete_eq.
    rewrite (needed_Permutation _ _ (map_to_list_insert (delete k m) k v
                                       (lookup_delete_eq m k))).
    rewrite <- (needed_Permutation _ _ (map_to_list_delete m k x Hk)).
    simpl. lia.
  - by rewrite (needed_Permutation _ _ (map_to_list_insert m k v Hk)).
Qed.

End Draws.

(** ** The minimum map *)

Section MinMapping.

Variable plan : StringModel.

Lemma specialChars_nonempty : specialChars_of plan <> "".
Proof.
  unfold specialChars_of.
  destruct (String.eqb_spec (OverrideSpecial plan) ""); done.
Qed.

Lemma specialChars_override :
  OverrideSpecial plan <> "" -> specialChars_of plan = OverrideSpecial plan.
Proof.
  unfold specialChars_of.
  destruct (String.eqb_spec (OverrideSpecial plan) ""); done.
Qed.

Lemma specialChars_default :
  OverrideSpecial plan = "" -> specialChars_of plan = defaultSpecialChars.
Proof. unfold specialChars_of. by intros ->. Qed.

(** The special entry always survives; another class's entry survives
    unless the special set is byte-identical to its key. *)
Lemma minMapping_special :
  minMapping_of plan !! specialChars_of plan = Some (MinSpecial plan).
Proof. unfold minMapping_of. apply lookup_insert_eq. Qed.

Lemma minMapping_upper :
  specialChars_of plan <> upperChars ->
  minMapping_of plan !! upperChars = Some (MinUpper plan).
Proof.
  intros Hne. unfold minMapping_of.
  rewrite lookup_insert_ne by done. apply lookup_insert_eq.
Qed.

Lemma minMapping_lower :
  specialChars_of plan <> lowerChars ->
  minMapping_of plan !! lowerChars = Some (MinLower plan).
Proof.
  intros Hne. unfold minMapping_of.
  rewrite lookup_insert_ne by done. rewrite lookup_insert_ne by done.
  apply lookup_insert_eq.
Qed.

Lemma minMapping_numeric :
  specialChars_of plan <> numChars ->
  minMapping_of plan !! numChars = Some (MinNumeric plan).
Proof.
  intros Hne. unfold minMapping_of.
  rewrite lookup_insert_ne by done. do 2 rewrite lookup_insert_ne by done.
  apply lookup_insert_eq.
Qed.

Lemma minMapping_lookup k v :
  minMapping_of plan !! k = Some v ->
  (k = specialChars_of plan /\ v = MinSpecial plan) \/
  (k = upperChars /\ v = MinUpper plan) \/
  (k = lowerChars /\ v = MinLower plan) \/
  (k = numChars /\ v = MinNumeric plan).
Proof.
  unfold minMapping_of. rewrite !lookup_insert_Some, lookup_empty.
  intuition (subst; auto); discriminate.
Qed.

Lemma range_map_elem picks k v :
  (k, v) ∈ range_map picks (minMapping_of plan) <->
  minMapping_of plan !! k = Some v.
Proof.
  unfold range_map. rewrite permute_by_Permutation.
  apply elem_of_map_to_list.
Qed.

Lemma range_map_entries_ok picks :
  wf_spec plan ->
  Forall (fun kv => kv.1 <> "" /\ 0 <= kv.2) (range_map picks (minMapping_of plan)).
Proof.
  intros Hwf. apply Forall_forall. intros [k v] Hin%range_map_elem.
  destruct Hwf. simpl.
  destruct (minMapping_lookup k v Hin) as [[-> ->]|[[-> ->]|[[-> ->]|[-> ->]]]];
    (split; [|done]); try done. apply specialChars_nonempty.
Qed.

Lemma range_map_needed picks :
  wf_spec plan ->
  Z.of_nat (needed (range_map picks (minMapping_of plan))) <= sum_mins plan.
Proof.
  intros Hwf. destruct Hwf. unfold range_map.
  rewrite (needed_Permutation _ _ (permute_by_Permutation picks _)).
  unfold minMapping_of, sum_mins.
  pose proof (needed_insert
    (<[upperChars:=MinUpper plan]> (<[lowerChars:=MinLower plan]>
       (<[numChars:=MinNumeric plan]> ∅)))
    (specialChars_of plan) (MinSpecial plan)) as H1.
  pose proof (needed_insert
    (<[lowerChars:=MinLower plan]> (<[numChars:=MinNumeric plan]> ∅))
    upperChars (MinUpper plan)) as H2.
  pose proof (needed_insert (<[numChars:=MinNumeric plan]> ∅)
    lowerChars (MinLower plan)) as H3.
  pose proof (needed_insert ∅ numChars (MinNumeric plan)) as H4.
  rewrite map_to_list_empty in H4. simpl in H4. lia.
Qed.

End MinMapping.

(** ** createString: what a run that sets the state went through *)

Section CreateStringFacts.

Variable sort_func : (nat -> nat -> bool) -> nat -> list (nat * nat).

Lemma HasError_AddError ds summary detail :
  HasError (AddError ds summary detail) = true.
Proof.
  unfold HasError, AddError. rewrite existsb_app. simpl. apply orb_true_r.
Qed.

(** A run that returns without a state has reported an error. *)
Lemma createString_no_state picks req sensitive rd resp :
  createString sort_func picks req sensitive rd = Returned resp ->
  State resp = None -> HasError (Diagnostics resp) = true.
Proof.
  unfold createString.
  destruct (HasError (Diagnostics _)) eqn:Herr.
  { by intros [= <-] _. }
  destruct (_ || _); [done|].
  destruct (minLoop _ _ _) as [result rd1|e|]; [| |done].
  2: { intros [= <-] _. apply HasError_AddError. }
  destruct (generateRandomBytes _ _ _) as [s rd2|e|]; [| |done].
  2: { intros [= <-] _. apply HasError_AddError. }
  destruct (rand_Read _ _) as [order rd3|e|]; [| |done].
  2: { intros [= <-] _. apply HasError_AddError. }
  destruct (sort_Slice _ _ _); [|done].
  by intros [= <-].
Qed.

Lemma createString_inv picks req sensitive rd resp str :
  createString sort_func picks req sensitive rd = Returned resp ->
  State resp = Some str ->
  exists result rd1 s rd2 order rd3 sorted,
    HasError (Plan_diags req) = false /\
    Diagnostics resp = Plan_diags req /\
    0 <= Length (Plan req) <= maxAlloc /\
    minLoop (range_map picks (minMapping_of (Plan req))) [] rd = Val result rd1 /\
    generateRandomBytes (chars_of (Plan req))
      (wrap64 (Length (Plan req) - Z.of_nat (List.length result))) rd1 = Val s rd2 /\
    rand_Read (List.length (result ++ s)) rd2 = Val order rd3 /\
    sort_Slice sort_func (result ++ s) (order_less order) = Some sorted /\
    str = new_state (Plan req) sensitive (string_of_list_ascii sorted).
Proof.
  unfold createString.
  destruct (HasError (Diagnostics _)) eqn:Herr.
  { by intros [= <-]. }
  destruct (Z.ltb_spec (Length (Plan req)) 0) as [?|Hlen]; [done|].
  destruct (Z.ltb_spec maxAlloc (Length (Plan req))) as [?|Hmax]; [done|].
  cbn [orb].
  destruct (minLoop _ _ _) as [result rd1|e|]; [| |done].
  2: { by intros [= <-]. }
  destruct (generateRandomBytes _ _ _) as [s rd2|e|] eqn:Hgen; [| |done].
  2: { by intros [= <-]. }
  destruct (rand_Read _ _) as [order rd3|e|] eqn:Hread; [| |done].
  2: { by intros [= <-]. }
  destruct (sort_Slice _ _ _) as [sorted|] eqn:Hsort; [|done].
  intros [= <-]. simpl. intros [= <-]. simpl.
  exists result, rd1, s, rd2, order, rd3, sorted. done.
Qed.

(** The characters of the result are the minimum draws of the map entries
    and the remainder draws from the pool, in some order. *)
Lemma createString_buffer picks req sensitive rd resp str :
  createString sort_func picks req sensitive rd = Returned resp ->
  State resp = Some str ->
  exists parts s,
    list_ascii_of_string (Result str) ≡ₚ concat parts ++ s /\
    drawn (range_map picks (minMapping_of (Plan req))) parts /\
    Forall (fun c => member c (chars_of (Plan req)) = true) s /\
    let remainder :=
      wrap64 (Length (Plan req) -
              Z.of_nat (needed (range_map picks (minMapping_of (Plan req))))) in
    0 <= remainder /\ List.length s = Z.to_nat remainder.
Proof.
  intros Hrun Hst.
  destruct (createString_inv _ _ _ _ _ _ Hrun Hst)
    as (result & rd1 & s & rd2 & order & rd3 & sorted &
        _ & _ & _ & Hloop & Hgen & _ & Hsort & Hres).
  apply minLoop_inv in Hloop as (parts & -> & Hd & _).
  simpl in *. rewrite (drawn_length _ _ Hd) in Hgen.
  apply generateRandomBytes_inv in Hgen as (Hrem & Hl & Hf & _).
  exists parts, s. rewrite Hres. cbn [Result new_state].
  rewrite list_ascii_of_string_of_list_ascii.
  split; [by eapply apply_swaps_Permutation|]. split; [done|]. split; [done|].
  split; [lia|done].
Qed.

(** The only error a run adds is the reader's. *)
Lemma createString_error picks req sensitive rd resp :
  createString sort_func picks req sensitive rd = Returned resp ->
  State resp = None ->
  HasError (Plan_diags req) = false ->
  exists e, reader_error e /\
    resp = random_bytes_error {| Diagnostics := Plan_diags req; State := None |} e.
Proof.
  unfold createString. cbn [Diagnostics]. intros Hrun Hst Herr.
  rewrite Herr in Hrun.
  destruct (_ || _); [done|].
  destruct (minLoop _ _ _) as [result rd1|e|] eqn:Hloop; [| |done].
  2: { injection Hrun as <-. exists e. split; [by eapply minLoop_Err|done]. }
  destruct (generateRandomBytes _ _ _) as [s rd2|e|] eqn:Hgen; [| |done].
  2: { injection Hrun as <-. exists e.
       split; [by eapply generateRandomBytes_Err|done]. }
  destruct (rand_Read _ _) as [order rd3|e|] eqn:Hread; [| |done].
  2: { injection Hrun as <-. exists e. split; [|done].
       unfold rand_Read in Hread.
       destruct (ReadFull_cases (List.length (result ++ s)) rd2)
         as [(? & ? & Hv & _)|(e' & He' & Hre & _)]; congruence. }
  destruct (sort_Slice _ _ _); [|done].
  injection Hrun as <-. done.
Qed.

(** A run that sets a state found in the reader at least as many bytes as
    the result has characters: the order keys. *)
Lemma createString_reads_order picks req sensitive rd resp str :
  createString sort_func picks req sensitive rd = Returned resp ->
  State resp = Some str ->
  (String.length (Result str) <= List.length rd)%nat.
Proof.
  intros Hrun Hst.
  destruct (createString_inv _ _ _ _ _ _ Hrun Hst)
    as (result & rd1 & s & rd2 & order & rd3 & sorted &
        _ & _ & _ & Hloop & Hgen & Hread & Hsort & ->).
  cbn [Result new_state].
  apply minLoop_inv in Hloop as (parts & _ & _ & Hrd1).
  apply generateRandomBytes_inv in Hgen as (_ & _ & _ & Hrd2 & _).
  unfold rand_Read in Hread.
  destruct (ReadFull_cases (List.length (result ++ s)) rd2)
    as [(bytes & rd' & Hv & _ & _ & Hlen)|(e & He & _)]; [|congruence].
  apply apply_swaps_Permutation, Permutation_length in Hsort.
  assert (String.length (string_of_list_ascii sorted) = List.length sorted) as ->.
  { clear. induction sorted as [|a l IH]; simpl; [done|]. by rewrite IH. }
  lia.
Qed.

End CreateStringFacts.

(** ** createString: length, sources and counts of the result *)

Section ResultFacts.

Variable sort_func : (nat -> nat -> bool) -> nat -> list (nat * nat).

Lemma length_list_ascii_of_string (s : string) :
  List.length (list_ascii_of_string s) = String.length s.
Proof. induction s as [|a s IH]; simpl; [done|]. by rewrite IH. Qed.

Lemma minLoop_zero entries init rd :
  Forall (fun kv => kv.2 = 0) entries -> minLoop entries init rd = Val init rd.
Proof.
  intros Hf. revert init. induction Hf as [|[k v] entries Hv _ IH]; intros init.
  - done.
  - simpl in *. subst v. unfold bind. rewrite generateRandomBytes_zero.
    by rewrite app_nil_r.
Qed.

(** Whenever a result is set on a well-formed spec it has exactly
    [length] characters. *)
Lemma createString_length picks req sensitive rd resp str :
  wf_spec (Plan req) ->
  createString sort_func picks req sensitive rd = Returned resp ->
  State resp = Some str ->
  Z.of_nat (String.length (Result str)) = Length (Plan req).
Proof.
  intros Hwf Hrun Hst.
  destruct (createString_buffer _ _ _ _ _ _ _ Hrun Hst)
    as (parts & s & Hperm & Hd & _ & Hrem & Hs).
  pose proof (range_map_needed (Plan req) picks Hwf) as Hneed.
  destruct Hwf as [HL ? ? ? ? Hsum].
  rewrite wrap64_id in Hrem, Hs by (unfold int64_range; lia).
  rewrite <- length_list_ascii_of_string, (Permutation_length Hperm).
  rewrite length_app, (drawn_length _ _ Hd), Hs. lia.
Qed.

(** Every character of the result was drawn from the pool or from the
    set of a map entry with a positive count. *)
Lemma createString_sources picks req sensitive rd resp str c :
  createString sort_func picks req sensitive rd = Returned resp ->
  State resp = Some str ->
  c ∈ list_ascii_of_string (Result str) ->
  member c (chars_of (Plan req)) = true \/
  exists k v, minMapping_of (Plan req) !! k = Some v /\ 0 < v /\ member c k = true.
Proof.
  intros Hrun Hst Hc.
  destruct (createString_buffer _ _ _ _ _ _ _ Hrun Hst)
    as (parts & s & Hperm & Hd & Hf & _).
  rewrite Hperm in Hc. apply elem_of_app in Hc as [Hc|Hc].
  - right. destruct (drawn_source _ _ _ Hd Hc) as (k & v & Hin & Hv & Hm).
    exists k, v. by apply range_map_elem in Hin.
  - left. rewrite Forall_forall in Hf. by apply Hf.
Qed.

(** Every entry of the map is honoured: the result holds at least [v]
    characters satisfying whatever all members of [k] satisfy. *)
Lemma createString_entry_count picks req sensitive rd resp str k v P :
  createString sort_func picks req sensitive rd = Returned resp ->
  State resp = Some str ->
  minMapping_of (Plan req) !! k = Some v ->
  (forall c, member c k = true -> P c = true) ->
  (Z.to_nat v <= count_if P (list_ascii_of_string (Result str)))%nat.
Proof.
  intros Hrun Hst Hk HP.
  destruct (createString_buffer _ _ _ _ _ _ _ Hrun Hst)
    as (parts & s & Hperm & Hd & _).
  rewrite (count_if_Permutation _ _ _ Hperm), count_if_app.
  apply range_map_elem with (picks := picks) in Hk.
  pose proof (drawn_count _ _ _ _ P Hd Hk HP). lia.
Qed.

(** With every class disabled and no minimum, a positive length makes the
    remainder draw hit the empty pool. *)
Lemma createString_empty_pool picks req sensitive rd :
  HasError (Plan_diags req) = false ->
  Upper (Plan req) = false -> Lower (Plan req) = false ->
  Number (Plan req) = false -> Special (Plan req) = false ->
  MinUpper (Plan req) = 0 -> MinLower (Plan req) = 0 ->
  MinNumeric (Plan req) = 0 -> MinSpecial (Plan req) = 0 ->
  0 < Length (Plan req) <= maxAlloc ->
  createString sort_func picks req sensitive rd =
  Panicked "crypto/rand: argument to Int is <= 0".
Proof.
  intros Herr Hu Hl Hn Hs Hmu Hml Hmn Hms HL.
  unfold createString. cbn [Diagnostics]. rewrite Herr.
  assert (maxAlloc < 2 ^ 63) as Hmax by done.
  destruct (Z.ltb_spec (Length (Plan req)) 0) as [?|_]; [lia|].
  destruct (Z.ltb_spec maxAlloc (Length (Plan req))) as [?|_]; [lia|].
  cbn [orb]. rewrite minLoop_zero.
  2: { apply Forall_forall. intros [k v] Hin%range_map_elem. simpl.
       destruct (minMapping_lookup _ _ _ Hin) as [[_ ->]|[[_ ->]|[[_ ->]|[_ ->]]]];
         done. }
  unfold chars_of. rewrite Hu, Hl, Hn, Hs. simpl.
  rewrite Z.sub_0_r, wrap64_id by (unfold int64_range; lia).
  rewrite generateRandomBytes_empty_pool by lia. done.
Qed.

(** Length zero, no minimum: the run touches no entropy and sets the
    empty string. *)
Lemma createString_empty_result picks req sensitive rd :
  swaps_in_range sort_func ->
  HasError (Plan_diags req) = false ->
  Length (Plan req) = 0 ->
  MinUpper (Plan req) = 0 -> MinLower (Plan req) = 0 ->
  MinNumeric (Plan req) = 0 -> MinSpecial (Plan req) = 0 ->
  exists str,
    createString sort_func picks req sensitive rd =
    Returned {| Diagnostics := Plan_diags req; State := Some str |} /\
    Result str = "".
Proof.
  intros Hsort Herr HL Hmu Hml Hmn Hms.
  unfold createString. cbn [Diagnostics]. rewrite Herr, HL.
  change ((0 <? 0) || (maxAlloc <? 0)) with false. cbv iota.
  rewrite minLoop_zero.
  2: { apply Forall_forall. intros [k v] Hin%range_map_elem. simpl.
       destruct (minMapping_lookup _ _ _ Hin) as [[_ ->]|[[_ ->]|[[_ ->]|[_ ->]]]];
         done. }
  simpl (List.length []). change (wrap64 (0 - Z.of_nat 0)) with 0.
  rewrite generateRandomBytes_zero. simpl.
  unfold sort_Slice. simpl.
  destruct (sort_func (order_less []) 0) as [|[i j] sw] eqn:Hsw.
  - simpl. by eexists.
  - destruct (Hsort (order_less []) O i j); [|lia]. rewrite Hsw. by left.
Qed.

(** Every minimum zero, a pool that starts with [c0], and a reader of zero
    bytes, one round per draw and one byte per order key: every draw is
    [c0]. *)
Lemma createString_zero_reader picks req sensitive c0 n :
  swaps_in_range sort_func ->
  HasError (Plan_diags req) = false ->
  MinUpper (Plan req) = 0 -> MinLower (Plan req) = 0 ->
  MinNumeric (Plan req) = 0 -> MinSpecial (Plan req) = 0 ->
  0 <= Length (Plan req) <= maxAlloc ->
  String.get 0 (chars_of (Plan req)) = Some c0 ->
  (Z.to_nat (Length (Plan req)) * Int_bytes (len (chars_of (Plan req))) +
   Z.to_nat (Length (Plan req)) <= n)%nat ->
  createString sort_func picks req sensitive (replicate n 0) =
  state_set req sensitive
    (string_of_list_ascii (replicate (Z.to_nat (Length (Plan req))) c0)).
Proof.
  intros Hsort Herr Hmu Hml Hmn Hms HL Hc0 Hn.
  assert (maxAlloc < 2 ^ 63) as Hmax by done.
  pose (L := Z.to_nat (Length (Plan req))).
  pose (k := Int_bytes (len (chars_of (Plan req)))).
  replace n with (L * k + (L + (n - (L * k + L))))%nat by (unfold L, k; lia).
  rewrite !replicate_add.
  unfold createString. cbn [Diagnostics]. rewrite Herr.
  destruct (Z.ltb_spec (Length (Plan req)) 0) as [?|_]; [lia|].
  destruct (Z.ltb_spec maxAlloc (Length (Plan req))) as [?|_]; [lia|].
  cbn [orb]. rewrite minLoop_zero.
  2: { apply Forall_forall. intros [k' v] Hin%range_map_elem. simpl.
       destruct (minMapping_lookup _ _ _ Hin) as [[_ ->]|[[_ ->]|[[_ ->]|[_ ->]]]];
         done. }
  simpl (List.length []). rewrite Z.sub_0_r, wrap64_id by (unfold int64_range; lia).
  unfold L at 1, k. rewrite (generateRandomBytes_zeros _ c0) by done. fold L.
  rewrite app_nil_l, length_replicate.
  unfold rand_Read. rewrite ReadFull_zeros.
  destruct (apply_swaps_in_range
              (sort_func (order_less (replicate L 0)) (List.length (replicate L c0)))
              (replicate L c0)) as [sorted Hsorted].
  { apply Forall_forall. intros [i j] Hin%list_elem_of_In. by apply Hsort in Hin. }
  unfold sort_Slice. rewrite Hsorted.
  apply apply_swaps_Permutation in Hsorted.
  symmetry in Hsorted. apply replicate_Permutation in Hsorted. by subst sorted.
Qed.

(** The loop over entries none of which asks for a character and one of
    which has a negative count panics in [make], whatever the reader. *)
Lemma minLoop_nonpositive entries init rd :
  Forall (fun kv => kv.2 <= 0) entries ->
  Exists (fun kv => kv.2 < 0) entries ->
  minLoop entries init rd = Panic "makeslice: len out of range".
Proof.
  intros Hle Hneg. revert init.
  induction entries as [|[k v] entries IH]; intros init.
  - by apply Exists_nil in Hneg.
  - apply Forall_cons in Hle as [Hv Hle]. simpl in Hv. cbn [minLoop]. unfold bind.
    destruct (decide (v = 0)) as [->|Hnz].
    + rewrite generateRandomBytes_zero.
      apply Exists_cons in Hneg as [?|Hneg]; [simpl in *; lia|]. by apply IH.
    + by rewrite generateRandomBytes_negative by lia.
Qed.

End ResultFacts.


(** ** The properties of the specification *)

Ltac by_evaluation := repeat split; vm_compute; (reflexivity || congruence).

(** C2: on every valid generation spec, whenever [createString] returns
    with a result set there is no error and the result has exactly
    [length] characters; and whenever it returns with an error it has set
    no result at all. *)
Theorem createString_exact_length sort_func picks req sensitive rd resp :
  valid_spec (Plan req) ->
  createString sort_func picks req sensitive rd = Returned resp ->
  match State resp with
  | Some str =>
      HasError (Diagnostics resp) = false /\
      Z.of_nat (String.length (Result str)) = Length (Plan req)
  | None => HasError (Diagnostics resp) = true
  end /\
  (HasError (Diagnostics resp) = true -> State resp = None).
Proof.
  intros Hvalid Hrun.
  assert (forall str, State resp = Some str ->
            HasError (Diagnostics resp) = false /\
            Z.of_nat (String.length (Result str)) = Length (Plan req)) as Hsome.
  { intros str Hst. split.
    - destruct (createString_inv _ _ _ _ _ _ _ Hrun Hst)
        as (? & ? & ? & ? & ? & ? & ? & Herr & -> & _). exact Herr.
    - eapply createString_length; [apply Hvalid|exact Hrun|exact Hst]. }
  destruct (State resp) as [str|] eqn:Hst.
  - destruct (Hsome str eq_refl) as [Herr Hlen]. split; [done|].
    rewrite Herr. intros [=].
  - split; [|done]. by eapply createString_no_state.
Qed.

Lemma createString_exact_length_witness :
  createString sort_short [] one_of_each false [3; 1; 4; 1; 5; 9; 2; 6; 5; 3; 5; 8] =
  state_set one_of_each false "d1E@FJ" /\
  HasError (Plan_diags one_of_each) = false /\
  Z.of_nat (String.length "d1E@FJ") = Length (Plan one_of_each).
Proof.
  assert (createString sort_short [] one_of_each false
            [3; 1; 4; 1; 5; 9; 2; 6; 5; 3; 5; 8] =
          state_set one_of_each false "d1E@FJ") as Hrun by (vm_compute; reflexivity).
  split; [exact Hrun|].
  refine (proj1 (createString_exact_length sort_short [] one_of_each false
                   [3; 1; 4; 1; 5; 9; 2; 6; 5; 3; 5; 8] _ _ Hrun)).
  by_evaluation.
Defined.

(** C1, at the failing input: the spec is valid, the numeric class is
    enabled with a minimum of one, the special set is overridden with the
    digits; the special entry of the map replaces the numeric one, no digit
    is drawn for the minimum, and the result [A] has no digit. *)
Theorem min_numeric_lost_when_special_is_digits :
  valid_spec (Plan digits_as_special) /\
  Number (Plan digits_as_special) = true /\
  MinNumeric (Plan digits_as_special) = 1 /\
  minMapping_of (Plan digits_as_special) !! numChars = Some 0 /\
  createString sort_short [] digits_as_special false [0; 0] =
  state_set digits_as_special false "A" /\
  count_class numChars "A" = O.
Proof. split; [by_evaluation|]. by vm_compute. Qed.

(** C4, the claim as stated fails: with length 1 and two uppercase
    characters required, [createString] reports nothing and panics in
    [make] on the negative remainder. *)
Lemma createString_short_length_panics :
  Length (Plan short_length) < sum_mins (Plan short_length) /\
  createString sort_short [] short_length false [0; 0; 0; 0] =
  Panicked "makeslice: len out of range".
Proof. by vm_compute. Qed.

(** C4, amended: for every spec with non-negative minimums whose sum does
    not overflow and length below that sum, [validateLength] reports an
    error to the caller; [createString] has no such check of its own, but
    whenever it sets a result the result has exactly [length] characters,
    so nothing truncated or padded is returned. *)
Theorem validateLength_rejects_short_length config :
  wf_spec config ->
  Length config < sum_mins config ->
  HasError (validateLength config) = true /\
  forall sort_func picks diags sensitive rd resp str,
    createString sort_func picks {| Plan := config; Plan_diags := diags |}
      sensitive rd = Returned resp ->
    State resp = Some str ->
    Z.of_nat (String.length (Result str)) = Length config.
Proof.
  intros Hwf Hshort. split.
  - destruct Hwf as [HL ? ? ? ? Hsum]. unfold sum_mins in *.
    unfold validateLength.
    rewrite (wrap64_id (MinUpper config + MinLower config))
      by (unfold int64_range; lia).
    rewrite (wrap64_id (MinUpper config + MinLower config + MinNumeric config))
      by (unfold int64_range; lia).
    rewrite wrap64_id by (unfold int64_range; lia).
    destruct (Z.ltb_spec (Length config)
                (MinUpper config + MinLower config + MinNumeric config +
                 MinSpecial config)) as [_|?]; [|lia].
    apply HasError_AddError.
  - intros sort_func picks diags sensitive rd resp str Hrun Hst.
    exact (createString_length sort_func picks
             {| Plan := config; Plan_diags := diags |} sensitive rd resp str
             Hwf Hrun Hst).
Qed.

Lemma validateLength_rejects_short_length_witness :
  HasError (validateLength (Plan short_length)) = true /\
  forall sort_func picks diags sensitive rd resp str,
    createString sort_func picks
      {| Plan := Plan short_length; Plan_diags := diags |} sensitive rd
    = Returned resp ->
    State resp = Some str ->
    Z.of_nat (String.length (Result str)) = Length (Plan short_length).
Proof.
  apply (validateLength_rejects_short_length (Plan short_length)).
  - by_evaluation.
  - by vm_compute.
Defined.

(** C5, at the failing input: with every class disabled, no minimum and
    length 1, [createString] panics in [rand.Int] on the empty pool,
    whatever the reader, the iteration order and the sorting routine; it
    reports no error. *)
Theorem createString_all_disabled_panics sort_func picks sensitive rd :
  createString sort_func picks all_disabled sensitive rd =
  Panicked "crypto/rand: argument to Int is <= 0".
Proof. apply createString_empty_pool; by vm_compute. Qed.

(** C6, the claim as stated fails: with the override left as the empty
    string and only the special class enabled, the special class is not
    disabled; the result is a character of the default special set. *)
Lemma empty_override_keeps_default_special :
  OverrideSpecial (Plan empty_override) = "" /\
  Special (Plan empty_override) = true /\
  createString sort_short [] empty_override false [0; 0] =
  state_set empty_override false "!" /\
  count_class defaultSpecialChars "!" = 1%nat.
Proof. by vm_compute. Qed.

(** C6, amended: a non-empty override replaces the default special set
    verbatim, and an empty override is the same as none: the default
    special set stays in force and the class is not disabled.  For the set
    in force (the override when it is not empty, the default set when it
    is): in every run that sets a result, the special minimum is drawn from
    it, and with the other classes disabled and without minimum every
    character of the result is a member of it; and with only the special
    class enabled, no minimum and a reader of zero bytes, the run does set
    a result, [length] times the first character of the set. *)
Theorem override_special_replaces_default sort_func picks req sensitive rd :
  let plan := Plan req in
  let honoured (specialChars : string) :=
    (forall resp str,
       createString sort_func picks req sensitive rd = Returned resp ->
       State resp = Some str ->
       (Z.to_nat (MinSpecial plan) <= count_class specialChars (Result str))%nat /\
       (Upper plan = false -> Lower plan = false -> Number plan = false ->
        MinUpper plan = 0 -> MinLower plan = 0 -> MinNumeric plan = 0 ->
        count_class specialChars (Result str) = String.length (Result str))) /\
    (forall n c0,
       Upper plan = false -> Lower plan = false -> Number plan = false ->
       Special plan = true ->
       MinUpper plan = 0 -> MinLower plan = 0 -> MinNumeric plan = 0 ->
       MinSpecial plan = 0 ->
       swaps_in_range sort_func ->
       HasError (Plan_diags req) = false ->
       0 <= Length plan <= maxAlloc ->
       String.get 0 specialChars = Some c0 ->
       (Z.to_nat (Length plan) * Int_bytes (len specialChars) +
        Z.to_nat (Length plan) <= n)%nat ->
       createString sort_func picks req sensitive (replicate n 0) =
       state_set req sensitive
         (string_of_list_ascii (replicate (Z.to_nat (Length plan)) c0))) in
  (OverrideSpecial plan <> "" -> honoured (OverrideSpecial plan)) /\
  (OverrideSpecial plan = "" -> honoured defaultSpecialChars).
Proof.
  intros plan honoured.
  assert (honoured (specialChars_of plan)) as Hgoal.
  { split.
    - intros resp str Hrun Hst. split.
      + eapply createString_entry_count; [exact Hrun|exact Hst| |done].
        apply minMapping_special.
      + intros Hu Hl Hn Hmu Hml Hmn.
        unfold count_class. rewrite <- length_list_ascii_of_string.
        apply count_if_all, Forall_forall. intros c Hc.
        destruct (createString_sources _ _ _ _ _ _ _ c Hrun Hst Hc)
          as [Hpool|(k & v & Hk & Hv & Hm)].
        * unfold chars_of in Hpool. fold plan in Hpool.
          rewrite Hu, Hl, Hn in Hpool. simpl in Hpool.
          by destruct (Special plan).
        * fold plan in Hk.
          destruct (minMapping_lookup _ _ _ Hk)
            as [[-> _]|[[_ ->]|[[_ ->]|[_ ->]]]]; [done|lia..].
    - intros n c0 Hu Hl Hn Hs Hmu Hml Hmn Hms Hsort Herr HL Hc0 Hlen.
      assert (chars_of plan = specialChars_of plan) as Hchars.
      { unfold chars_of. by rewrite Hu, Hl, Hn, Hs. }
      apply createString_zero_reader; try done; fold plan; by rewrite Hchars. }
  split; intros Hov.
  - by rewrite <- (specialChars_override _ Hov).
  - by rewrite <- (specialChars_default _ Hov).
Qed.

Lemma override_special_replaces_default_witness :
  OverrideSpecial (Plan empty_override) = "" /\
  createString sort_short [] empty_override false (replicate 2 0) =
  state_set empty_override false "!" /\
  (Z.to_nat (MinSpecial (Plan empty_override)) <= count_class defaultSpecialChars "!")%nat /\
  count_class defaultSpecialChars "!" = String.length "!".
Proof.
  destruct (override_special_replaces_default sort_short [] empty_override false
              (replicate 2 0)) as [_ Hdefault].
  destruct (Hdefault eq_refl) as [Hpartial Hzero].
  assert (createString sort_short [] empty_override false (replicate 2 0) =
          state_set empty_override false "!") as Hrun.
  { apply (Hzero 2%nat "!"%char);
      first [reflexivity | apply sort_short_in_range | by_evaluation
            | (vm_compute; lia)]. }
  split; [reflexivity|]. split; [exact Hrun|].
  destruct (Hpartial _ _ Hrun eq_refl) as [Hmin Hall].
  split; [exact Hmin|]. apply Hall; reflexivity.
Defined.

(** C7, at the failing input: three characters [ABC] get the order keys
    1, 2, 0.  Reordering by ascending key gives [CAB]; [sort.Slice] swaps
    the characters only, the keys stay where they are, the comparison
    reads the keys of positions, and the result is [ACB]. *)
Theorem sort_Slice_is_not_by_key :
  createString sort_short [] three_upper false [0; 1; 2; 1; 2; 0] =
  state_set three_upper false "ACB" /\
  sort_Slice sort_short (list_ascii_of_string "ABC") (order_less [1; 2; 0]) =
  Some (list_ascii_of_string "ACB") /\
  spec_reorder_by_key (list_ascii_of_string "ABC") [1; 2; 0] =
  list_ascii_of_string "CAB".
Proof. by vm_compute. Qed.

(** C9, the claim as stated fails: the schema's validator of [length]
    rejects length 0 as invalid. *)
Lemma lengthValidator_rejects_zero :
  Length (Plan zero_length) = 0 /\
  sum_mins (Plan zero_length) = 0 /\
  lengthValidator_Validate (Length (Plan zero_length)) =
  AddError [] "expected length to be at least 1, got 0"
              "expected length to be at least 1, got 0" /\
  HasError (lengthValidator_Validate (Length (Plan zero_length))) = true.
Proof. by vm_compute. Qed.

(** C9, amended: [createString] run with length 0 and all four minimums 0
    sets the empty string and reports no error, without touching the
    reader; the validator of [length], however, rejects such a
    configuration, every length below 1 being an error. *)
Theorem createString_zero_length sort_func picks req sensitive rd :
  swaps_in_range sort_func ->
  HasError (Plan_diags req) = false ->
  Length (Plan req) = 0 ->
  MinUpper (Plan req) = 0 -> MinLower (Plan req) = 0 ->
  MinNumeric (Plan req) = 0 -> MinSpecial (Plan req) = 0 ->
  createString sort_func picks req sensitive rd = state_set req sensitive "" /\
  HasError (lengthValidator_Validate (Length (Plan req))) = true.
Proof.
  intros Hsort Herr HL Hmu Hml Hmn Hms. split.
  - destruct (createString_empty_result sort_func picks req sensitive rd
                Hsort Herr HL Hmu Hml Hmn Hms) as (str & Hrun & Hres).
    rewrite Hrun. unfold state_set. do 2 f_equal.
    destruct (createString_inv _ _ _ _ _ _ _ Hrun eq_refl)
      as (? & ? & ? & ? & ? & ? & sorted & _ & _ & _ & _ & _ & _ & _ & ->).
    cbn [Result new_state] in Hres. by rewrite Hres.
  - rewrite HL. by vm_compute.
Qed.

Lemma createString_zero_length_witness :
  createString sort_short [2; 0; 1]%nat zero_length true [] =
  state_set zero_length true "" /\
  HasError (lengthValidator_Validate (Length (Plan zero_length))) = true.
Proof.
  apply (createString_zero_length sort_short [2; 0; 1]%nat zero_length true []
           sort_short_in_range); reflexivity.
Defined.

(** C10, the claim as stated fails.  Numeric disabled with a minimum of
    one and the special set overridden with the digits: the numeric entry
    of the map is replaced and the result [A] has no digit.  Lowercase
    disabled with a minimum of one and the special set overridden with
    [a]: the lowercase character drawn is [a], which is in the pool. *)
Lemma disabled_minimum_not_always_outside_pool :
  (Number (Plan disabled_digits_collide) = false /\
   MinNumeric (Plan disabled_digits_collide) = 1 /\
   createString sort_short [] disabled_digits_collide false [0; 0] =
   state_set disabled_digits_collide false "A" /\
   count_class numChars "A" = O) /\
  (Lower (Plan disabled_lower_overlap) = false /\
   MinLower (Plan disabled_lower_overlap) = 1 /\
   createString sort_short [] disabled_lower_overlap false [0; 0] =
   state_set disabled_lower_overlap false "a" /\
   count_outside (chars_of (Plan disabled_lower_overlap)) "a" = O).
Proof. by vm_compute. Qed.

(** C10, amended: the minimum draw of every entry of the map is performed
    whatever the enable flags are.  So in every run that sets a result the
    result holds at least [MinSpecial] members of the special set and, for
    each other class whose character string the special set is not
    byte-identical to, at least that class's minimum of members of its set;
    and when no member of an entry's set is in the pool, at least that
    entry's count of characters of the result lie outside the pool. *)
Theorem minimum_drawn_whatever_the_flags sort_func picks req sensitive rd resp str :
  createString sort_func picks req sensitive rd = Returned resp ->
  State resp = Some str ->
  let plan := Plan req in
  (forall k v, minMapping_of plan !! k = Some v ->
     (Z.to_nat v <= count_class k (Result str))%nat) /\
  (Z.to_nat (MinSpecial plan) <= count_class (specialChars_of plan) (Result str))%nat /\
  (specialChars_of plan <> upperChars ->
     (Z.to_nat (MinUpper plan) <= count_class upperChars (Result str))%nat) /\
  (specialChars_of plan <> lowerChars ->
     (Z.to_nat (MinLower plan) <= count_class lowerChars (Result str))%nat) /\
  (specialChars_of plan <> numChars ->
     (Z.to_nat (MinNumeric plan) <= count_class numChars (Result str))%nat) /\
  (forall k v, minMapping_of plan !! k = Some v ->
     (forall c, member c k = true -> member c (chars_of plan) = false) ->
     (Z.to_nat v <= count_outside (chars_of plan) (Result str))%nat).
Proof.
  intros Hrun Hst plan.
  assert (forall k v, minMapping_of plan !! k = Some v ->
            (Z.to_nat v <= count_class k (Result str))%nat) as Hentry.
  { intros k v Hk. unfold count_class.
    by eapply createString_entry_count; [exact Hrun|exact Hst|exact Hk|]. }
  split; [exact Hentry|].
  split; [apply Hentry, minMapping_special|].
  split; [intros Hne; by apply Hentry, minMapping_upper|].
  split; [intros Hne; by apply Hentry, minMapping_lower|].
  split; [intros Hne; by apply Hentry, minMapping_numeric|].
  intros k v Hk Hout. unfold count_outside.
  eapply createString_entry_count; [exact Hrun|exact Hst|exact Hk|].
  intros c Hc. by rewrite (Hout c Hc).
Qed.

Lemma minimum_drawn_whatever_the_flags_witness :
  Number (Plan disabled_digits) = false /\
  createString sort_short [] disabled_digits false [3; 7; 0; 0; 0; 0] =
  state_set disabled_digits false "37A" /\
  (Z.to_nat 2 <= count_class numChars "37A")%nat /\
  (Z.to_nat 2 <= count_outside (chars_of (Plan disabled_digits)) "37A")%nat.
Proof.
  assert (createString sort_short [] disabled_digits false [3; 7; 0; 0; 0; 0] =
          state_set disabled_digits false "37A") as Hrun by (vm_compute; reflexivity).
  split; [reflexivity|]. split; [exact Hrun|].
  destruct (minimum_drawn_whatever_the_flags sort_short [] disabled_digits false
              [3; 7; 0; 0; 0; 0] _ _ Hrun eq_refl)
    as (_ & _ & _ & _ & Hnum & Hout).
  split.
  - apply Hnum. by vm_compute.
  - apply (Hout numChars 2); [by vm_compute|].
    intros c Hc. destruct c as [[] [] [] [] [] [] [] []]; by vm_compute in Hc |- *.
Defined.


(** ** The seeded permutation engine, properties *)

Module ShuffleFacts.

Import Shuffle.

Section Engine.

Context {Element : Type}.
Variable Gen : Type.
Variable intn : Gen -> nat -> nat * Gen.
Variable seeded : string -> Gen.
Variable Env : Type.
Variable secure : Env -> Gen.

Abbreviation Shuffle := (Shuffle (Element := Element) Gen intn seeded Env secure).
Abbreviation fisher_yates := (fisher_yates (Element := Element) Gen intn).
Abbreviation passes := (passes (Element := Element) Gen intn).

Lemma exchange_Permutation (l : list Element) i j : exchange l i j ≡ₚ l.
Proof.
  unfold exchange. destruct (l !! i) as [x|] eqn:Hi; [|done].
  destruct (l !! j) as [y|] eqn:Hj; [|done].
  by apply Permutation_insert_swap.
Qed.

(** A pass is a permutation of the input. *)
Lemma fisher_yates_Permutation n (l : list Element) g :
  (fisher_yates n l g).1 ≡ₚ l.
Proof.
  revert l g. induction n as [|i IH]; intros l g; simpl; [done|].
  destruct (intn g (S i)) as [j g']. by rewrite IH, exchange_Permutation.
Qed.

Lemma passes_length fuel (inp : list Element) remaining g :
  inp <> [] -> (remaining <= fuel)%nat ->
  List.length (passes fuel inp remaining g) = remaining.
Proof.
  intros Hne. revert remaining g.
  induction fuel as [|fuel IH]; intros remaining g Hle; simpl.
  - lia.
  - pose proof (fisher_yates_Permutation (List.length inp) inp g) as Hp.
    destruct (fisher_yates (List.length inp) inp g) as [p g'].
    apply Permutation_length in Hp. simpl in Hp.
    destruct (Nat.leb_spec remaining (List.length inp)).
    + rewrite length_take. lia.
    + rewrite length_app, IH; [lia|].
      destruct inp; [done|]. simpl in *. lia.
Qed.

(** The result has exactly the requested number of elements. *)
Lemma Shuffle_length env (spec : PermutationSpec) :
  input spec <> [] ->
  List.length (Shuffle env spec) =
  default (List.length (input spec)) (outputLength spec).
Proof.
  intros Hne. unfold Shuffle.
  destruct (Nat.eqb_spec (default (List.length (input spec)) (outputLength spec)) 0)
    as [->|Hn]; [done|].
  destruct (Nat.eqb_spec (List.length (input spec)) 0) as [H0|_].
  { by destruct (input spec). }
  simpl. by apply passes_length.
Qed.

(** An empty input gives an empty result, whatever the seed and the
    requested length. *)
Lemma Shuffle_empty_input env n sd :
  Shuffle env {| input := []; outputLength := n; seed := sd |} = [].
Proof. unfold Shuffle. simpl. by rewrite orb_true_r. Qed.

(** One element asked of a one-element input is that element. *)
Lemma Shuffle_single env (a : Element) sd :
  Shuffle env {| input := [a]; outputLength := Some 1%nat; seed := sd |} = [a].
Proof.
  unfold Shuffle. cbn -[Nat.modulo].
  destruct (intn _ 1) as [j g']. by rewrite Nat.mod_1_r.
Qed.

End Engine.

End ShuffleFacts.



(** ** Further properties of string.go *)

Section MoreGoFacts.

Lemma wrap64_add_l x y : wrap64 (wrap64 x + y) = wrap64 (x + y).
Proof.
  unfold wrap64. f_equal.
  replace ((x + 2 ^ 63) mod 2 ^ 64 - 2 ^ 63 + y + 2 ^ 63)
    with ((x + 2 ^ 63) mod 2 ^ 64 + y) by lia.
  rewrite Zplus_mod_idemp_l. f_equal. lia.
Qed.

Lemma wrap64_sum (config : StringModel) :
  wrap64 (wrap64 (wrap64 (MinUpper config + MinLower config) + MinNumeric config)
          + MinSpecial config) = wrap64 (sum_mins config).
Proof.
  unfold sum_mins.
  rewrite (wrap64_add_l (MinUpper config + MinLower config) (MinNumeric config)).
  apply wrap64_add_l.
Qed.

Lemma member_app c (a b : string) :
  member c (a +:+ b) = member c a || member c b.
Proof.
  unfold member. induction a as [|x a IH]; simpl; [done|].
  rewrite IH. by rewrite orb_assoc.
Qed.

Lemma member_empty c : member c "" = false.
Proof. done. Qed.

End MoreGoFacts.

(** X1: whenever [generateRandomBytes] returns bytes, they are exactly
    [length] bytes, each a member of the character set, taken off the front
    of the reader: at least one reader byte per byte returned when the set
    has two characters or more.  On a set of one character nothing is read
    at all: the result is that character [length] times and the reader is
    left as it was. *)
Theorem generateRandomBytes_draws (charSet : string) length rd :
  (forall s rd',
     generateRandomBytes charSet length rd = Val s rd' ->
     Z.of_nat (List.length s) = length /\
     Forall (fun c => member c charSet = true) s /\
     (List.length rd' <= List.length rd)%nat /\
     (2 <= len charSet -> (Z.to_nat length + List.length rd' <= List.length rd)%nat)) /\
  (forall c,
     charSet = String c "" -> 0 <= length <= maxAlloc ->
     generateRandomBytes charSet length rd = Val (replicate (Z.to_nat length) c) rd).
Proof.
  split.
  - intros s rd' (Hv & Hl & Hf & Hrd & Hrd2)%generateRandomBytes_inv.
    split; [lia|]. by split.
  - intros c -> Hlen.
    pose proof (generateRandomBytes_zeros (String c "") c length rd eq_refl Hlen) as H.
    change (Int_bytes (len (String c ""))) with O in H.
    by rewrite Nat.mul_0_r in H.
Qed.

Lemma generateRandomBytes_draws_witness :
  generateRandomBytes "abc" 2 [4; 7; 5; 6] = Val (list_ascii_of_string "ab") [6] /\
  Z.of_nat (List.length (list_ascii_of_string "ab")) = 2 /\
  Forall (fun c => member c "abc" = true) (list_ascii_of_string "ab") /\
  (List.length [6] <= List.length [4; 7; 5; 6])%nat /\
  (2 <= len "abc" -> (Z.to_nat 2 + List.length [6] <= List.length [4; 7; 5; 6])%nat).
Proof.
  assert (generateRandomBytes "abc" 2 [4; 7; 5; 6] =
          Val (list_ascii_of_string "ab") [6]) as Hrun by (vm_compute; reflexivity).
  split; [exact Hrun|].
  exact (proj1 (generateRandomBytes_draws "abc" 2 [4; 7; 5; 6]) _ _ Hrun).
Defined.

(** X2: when the set has two characters or more and the reader holds fewer
    bytes than [length], [generateRandomBytes] returns an error of the
    reader ([io.EOF] or [io.ErrUnexpectedEOF]): no bytes, no panic. *)
Theorem generateRandomBytes_short_reader (charSet : string) length rd :
  2 <= len charSet -> 0 <= length <= maxAlloc ->
  (List.length rd < Z.to_nat length)%nat ->
  exists e, generateRandomBytes charSet length rd = Err e /\ reader_error e.
Proof.
  intros H2 Hlen Hrd.
  assert (charSet <> "") as Hne by (intros ->; unfold len in H2; simpl in H2; lia).
  destruct (generateRandomBytes_cases charSet length rd Hne Hlen)
    as [(s & rd' & Hval)|(e & He)]; [|by exists e].
  apply generateRandomBytes_inv in Hval as (_ & _ & _ & _ & Hcount).
  specialize (Hcount H2). lia.
Qed.

Lemma generateRandomBytes_short_reader_witness :
  exists e, generateRandomBytes "abc" 3 [1; 2] = Err e /\ reader_error e.
Proof.
  apply (generateRandomBytes_short_reader "abc" 3 [1; 2]);
    [by vm_compute | by_evaluation | simpl; lia].
Defined.

(** X3: [generateRandomBytes] panics exactly when the length is negative
    or above the allocator's limit (in [make]) or when at least one byte
    is asked of the empty set (in [rand.Int]); whether it does never
    depends on the reader. *)
Theorem generateRandomBytes_panics_iff (charSet : string) length rd :
  (exists msg, generateRandomBytes charSet length rd = Panic msg) <->
  length < 0 \/ maxAlloc < length \/ (0 < length /\ charSet = "").
Proof.
  split.
  - intros (msg & Hp).
    destruct (Z.ltb_spec length 0) as [?|Hge]; [by left|]. right.
    destruct (Z.ltb_spec maxAlloc length) as [?|Hle]; [by left|]. right.
    destruct (decide (length = 0)) as [->|Hnz].
    { by rewrite generateRandomBytes_zero in Hp. }
    split; [lia|].
    destruct (decide (charSet = "")) as [?|Hne]; [done|].
    destruct (generateRandomBytes_cases charSet length rd Hne ltac:(lia))
      as [(s & rd' & Hs)|(e & He & _)]; congruence.
  - intros [Hneg|[Hbig|[Hpos ->]]].
    + eexists. by apply generateRandomBytes_negative.
    + eexists. by apply generateRandomBytes_too_large.
    + destruct (Z.ltb_spec maxAlloc length) as [?|Hle].
      * eexists. by apply generateRandomBytes_too_large.
      * eexists. by apply generateRandomBytes_empty_pool.
Qed.

(** [validateLength] reports an error exactly when [length] is below
    the sum of the four minimums taken as an int64 sum, which wraps. *)
Lemma validateLength_compares_wrapped_sum (config : StringModel) :
  HasError (validateLength config) = true <->
  Length config < wrap64 (sum_mins config).
Proof.
  unfold validateLength. rewrite wrap64_sum.
  destruct (Z.ltb_spec (Length config) (wrap64 (sum_mins config))).
  - split; [done|]. intros _. apply HasError_AddError.
  - split; [done|lia].
Qed.

(** X4: when the minimums are non-negative and their sum fits an int64,
    [validateLength] adds no diagnostic exactly when [length] covers the
    sum. *)
Theorem validateLength_accepts_iff (config : StringModel) :
  wf_spec config ->
  validateLength config = [] <-> sum_mins config <= Length config.
Proof.
  intros [HL ? ? ? ? Hsum]. unfold validateLength. rewrite wrap64_sum.
  rewrite wrap64_id by (unfold int64_range, sum_mins in *; lia).
  destruct (Z.ltb_spec (Length config) (sum_mins config)).
  - split; [done|lia].
  - split; [done|]. done.
Qed.

Lemma validateLength_accepts_iff_witness :
  validateLength (Plan one_of_each) = [] <->
  sum_mins (Plan one_of_each) <= Length (Plan one_of_each).
Proof. apply (validateLength_accepts_iff (Plan one_of_each)). by_evaluation. Defined.

(** X5: when the sum of the minimums lies in [[2^63, 2^64)] the int64 sum
    is negative, and [validateLength] accepts every non-negative [length],
    however far below the sum. *)
Theorem validateLength_accepts_overflowing_sum (config : StringModel) :
  0 <= Length config ->
  2 ^ 63 <= sum_mins config < 2 ^ 64 ->
  validateLength config = [].
Proof.
  intros HL Hsum. unfold validateLength. rewrite wrap64_sum.
  assert (wrap64 (sum_mins config) = sum_mins config - 2 ^ 64) as ->.
  { unfold wrap64.
    replace (sum_mins config + 2 ^ 63)
      with (sum_mins config - 2 ^ 63 + 1 * 2 ^ 64) by lia.
    rewrite Z_mod_plus_full, Z.mod_small; lia. }
  destruct (Z.ltb_spec (Length config) (sum_mins config - 2 ^ 64)); [lia|done].
Qed.

Lemma validateLength_accepts_overflowing_sum_witness :
  validateLength (Plan (request 1 true true true true (2 ^ 62) (2 ^ 62) 0 0 "")) = [].
Proof.
  apply (validateLength_accepts_overflowing_sum
           (Plan (request 1 true true true true (2 ^ 62) (2 ^ 62) 0 0 "")));
    by_evaluation.
Defined.

(** X6: the only error [createString] adds to a plan that decoded
    without error is the single [error generating random bytes], carrying
    the reader's error ([io.EOF] or [io.ErrUnexpectedEOF]); and a run that
    sets a result found in the reader at least as many bytes as the result
    has characters. *)
Theorem createString_reader_exhaustion sort_func picks req sensitive rd resp :
  createString sort_func picks req sensitive rd = Returned resp ->
  (State resp = None -> HasError (Plan_diags req) = false ->
   exists e, reader_error e /\
     Diagnostics resp =
     AddError (Plan_diags req) "error generating random bytes"
       ("error generating random bytes: " +:+ e)) /\
  (forall str, State resp = Some str ->
     (String.length (Result str) <= List.length rd)%nat).
Proof.
  intros Hrun. split.
  - intros Hst Herr.
    destruct (createString_error _ _ _ _ _ _ Hrun Hst Herr) as (e & He & ->).
    by exists e.
  - intros str Hst. by eapply createString_reads_order.
Qed.

Lemma createString_reader_exhaustion_witness :
  createString sort_short [] three_upper false [26; 0; 1; 2; 1; 2] =
  Returned {| Diagnostics :=
                AddError [] "error generating random bytes"
                  "error generating random bytes: unexpected EOF";
              State := None |} /\
  exists e, reader_error e /\
    AddError [] "error generating random bytes"
      "error generating random bytes: unexpected EOF" =
    AddError (Plan_diags three_upper) "error generating random bytes"
      ("error generating random bytes: " +:+ e).
Proof.
  assert (createString sort_short [] three_upper false [26; 0; 1; 2; 1; 2] =
          Returned {| Diagnostics :=
                        AddError [] "error generating random bytes"
                          "error generating random bytes: unexpected EOF";
                      State := None |}) as Hrun by (vm_compute; reflexivity).
  split; [exact Hrun|].
  exact (proj1 (createString_reader_exhaustion sort_short [] three_upper false
                  [26; 0; 1; 2; 1; 2] _ Hrun) eq_refl eq_refl).
Defined.

(** X7: every character of a result [createString] sets is a member of one
    of the four class sets (upper, lower, digits, the special set in
    force); and when all four minimums are zero, of the pool of the enabled
    classes. *)
Theorem createString_alphabet sort_func picks req sensitive rd resp str :
  createString sort_func picks req sensitive rd = Returned resp ->
  State resp = Some str ->
  let plan := Plan req in
  Forall (fun c => member c (upperChars +:+ lowerChars +:+ numChars +:+
                             specialChars_of plan) = true)
         (list_ascii_of_string (Result str)) /\
  (MinUpper plan = 0 -> MinLower plan = 0 -> MinNumeric plan = 0 ->
   MinSpecial plan = 0 ->
   Forall (fun c => member c (chars_of plan) = true)
          (list_ascii_of_string (Result str))).
Proof.
  intros Hrun Hst plan. split.
  - apply Forall_forall. intros c Hc.
    rewrite !member_app.
    destruct (createString_sources _ _ _ _ _ _ _ c Hrun Hst Hc)
      as [Hpool|(k & v & Hk & _ & Hm)].
    + unfold chars_of in Hpool. rewrite !member_app in Hpool.
      fold plan in Hpool.
      destruct (Upper plan), (Lower plan), (Number plan), (Special plan);
        rewrite ?member_empty in Hpool;
        destruct (member c upperChars), (member c lowerChars),
          (member c numChars), (member c (specialChars_of plan)); done.
    + fold plan in Hk.
      destruct (minMapping_lookup _ _ _ Hk) as [[-> _]|[[-> _]|[[-> _]|[-> _]]]];
        rewrite Hm, ?orb_true_r; done.
  - intros Hmu Hml Hmn Hms. apply Forall_forall. intros c Hc.
    destruct (createString_sources _ _ _ _ _ _ _ c Hrun Hst Hc)
      as [Hpool|(k & v & Hk & Hv & _)]; [done|].
    fold plan in Hk.
    destruct (minMapping_lookup _ _ _ Hk) as [[_ ->]|[[_ ->]|[[_ ->]|[_ ->]]]]; lia.
Qed.

Lemma createString_alphabet_witness :
  createString sort_short [] override_xy false [0; 1; 2; 0; 0; 0] =
  state_set override_xy false "xyx" /\
  Forall (fun c => member c (upperChars +:+ lowerChars +:+ numChars +:+
                             specialChars_of (Plan override_xy)) = true)
         (list_ascii_of_string "xyx").
Proof.
  assert (createString sort_short [] override_xy false [0; 1; 2; 0; 0; 0] =
          state_set override_xy false "xyx") as Hrun by (vm_compute; reflexivity).
  split; [exact Hrun|].
  exact (proj1 (createString_alphabet sort_short [] override_xy false
                  [0; 1; 2; 0; 0; 0] _ _ Hrun eq_refl)).
Defined.

(** X8: [createString] does not check the sign of a minimum: when an
    entry that survives in the map has a negative count (the special
    minimum, or another class's when the special set does not replace its
    entry), no run sets a state; and when moreover no minimum is positive,
    the run panics in [make], whatever the reader and the iteration
    order. *)
Theorem createString_negative_minimum sort_func picks req sensitive rd :
  let plan := Plan req in
  MinSpecial plan < 0 \/
  (specialChars_of plan <> upperChars /\ MinUpper plan < 0) \/
  (specialChars_of plan <> lowerChars /\ MinLower plan < 0) \/
  (specialChars_of plan <> numChars /\ MinNumeric plan < 0) ->
  (forall resp, createString sort_func picks req sensitive rd = Returned resp ->
                State resp = None) /\
  (HasError (Plan_diags req) = false -> 0 <= Length plan <= maxAlloc ->
   MinUpper plan <= 0 -> MinLower plan <= 0 ->
   MinNumeric plan <= 0 -> MinSpecial plan <= 0 ->
   createString sort_func picks req sensitive rd =
   Panicked "makeslice: len out of range").
Proof.
  intros plan Hneg.
  assert (exists k v, minMapping_of plan !! k = Some v /\ v < 0) as (k & v & Hk & Hv).
  { destruct Hneg as [?|[[? ?]|[[? ?]|[? ?]]]].
    - eexists _, _. split; [apply minMapping_special|done].
    - eexists _, _. split; [by apply minMapping_upper|done].
    - eexists _, _. split; [by apply minMapping_lower|done].
    - eexists _, _. split; [by apply minMapping_numeric|done]. }
  split.
  - intros resp Hrun. destruct (State resp) as [str|] eqn:Hst; [|done].
    destruct (createString_buffer _ _ _ _ _ _ _ Hrun Hst)
      as (parts & s & _ & Hd & _).
    apply (range_map_elem plan picks) in Hk.
    unfold drawn in Hd. apply list_elem_of_lookup in Hk as [i Hi].
    destruct (Forall2_lookup_l _ _ _ _ _ Hd Hi) as (p & _ & Hp & _).
    simpl in Hp. lia.
  - intros Herr HL Hmu Hml Hmn Hms. unfold createString. cbn [Diagnostics].
    rewrite Herr. fold plan.
    destruct (Z.ltb_spec (Length plan) 0) as [?|_]; [lia|].
    destruct (Z.ltb_spec maxAlloc (Length plan)) as [?|_]; [lia|].
    cbn [orb]. rewrite minLoop_nonpositive; [done| |].
    + apply Forall_forall. intros [k' v'] Hin%range_map_elem. simpl.
      destruct (minMapping_lookup _ _ _ Hin) as [[_ ->]|[[_ ->]|[[_ ->]|[_ ->]]]];
        done.
    + apply Exists_exists. exists (k, v). split; [|done].
      by apply range_map_elem.
Qed.

Lemma createString_negative_minimum_witness :
  (forall resp,
     createString sort_short [] (request 1 true true true true 0 0 0 (-1) "")
       false [0; 0] = Returned resp -> State resp = None) /\
  createString sort_short [] (request 1 true true true true 0 0 0 (-1) "")
    false [0; 0] = Panicked "makeslice: len out of range".
Proof.
  destruct (createString_negative_minimum sort_short []
              (request 1 true true true true 0 0 0 (-1) "") false [0; 0])
    as [Hnone Hpanic].
  - left. by vm_compute.
  - split; [exact Hnone|]. apply Hpanic; by_evaluation.
Defined.

(** X9: in the state [createString] sets, the id is the result, or [none]
    for the sensitive resource; length, the four flags, the four minimums,
    the override and the keepers are the plan's; and the response's
    diagnostics are exactly the plan's, with no error among them. *)
Theorem createString_state_echoes_plan sort_func picks req sensitive rd resp str :
  createString sort_func picks req sensitive rd = Returned resp ->
  State resp = Some str ->
  ID str = (if sensitive then "none" else Result str) /\
  Length str = Length (Plan req) /\
  (Upper str = Upper (Plan req) /\ Lower str = Lower (Plan req) /\
   Number str = Number (Plan req) /\ Special str = Special (Plan req)) /\
  (MinUpper str = MinUpper (Plan req) /\ MinLower str = MinLower (Plan req) /\
   MinNumeric str = MinNumeric (Plan req) /\ MinSpecial str = MinSpecial (Plan req)) /\
  OverrideSpecial str = OverrideSpecial (Plan req) /\
  Keepers str = Keepers (Plan req) /\
  Diagnostics resp = Plan_diags req /\
  HasError (Diagnostics resp) = false.
Proof.
  intros Hrun Hst.
  destruct (createString_inv _ _ _ _ _ _ _ Hrun Hst)
    as (? & ? & ? & ? & ? & ? & sorted & Herr & Hd & _ & _ & _ & _ & _ & ->).
  cbn. by rewrite Hd.
Qed.

Lemma createString_state_echoes_plan_witness :
  createString sort_short [] override_xy true [0; 1; 2; 0; 0; 0] =
  state_set override_xy true "xyx" /\
  ID (new_state (Plan override_xy) true "xyx") = "none" /\
  Length (new_state (Plan override_xy) true "xyx") = 3.
Proof.
  assert (createString sort_short [] override_xy true [0; 1; 2; 0; 0; 0] =
          state_set override_xy true "xyx") as Hrun by (vm_compute; reflexivity).
  split; [exact Hrun|].
  destruct (createString_state_echoes_plan sort_short [] override_xy true
              [0; 1; 2; 0; 0; 0] _ _ Hrun eq_refl) as (Hid & Hlen & _).
  split; [exact Hid|exact Hlen].
Defined.

(** X10: importing the result of a created resource gives a state with the
    same result and the same id (for the sensitive resource both are
    [none]), but without the configuration: length and minimums are 0, the
    four flags false, the override and the keepers empty. *)
Theorem importString_after_createString sort_func picks req sensitive rd resp str :
  createString sort_func picks req sensitive rd = Returned resp ->
  State resp = Some str ->
  exists imported,
    importString (Result str) sensitive =
    {| ImportDiagnostics := []; ImportState := Some imported |} /\
    Result imported = Result str /\
    ID imported = ID str /\
    Length imported = 0 /\
    (MinUpper imported = 0 /\ MinLower imported = 0 /\
     MinNumeric imported = 0 /\ MinSpecial imported = 0) /\
    (Upper imported = false /\ Lower imported = false /\
     Number imported = false /\ Special imported = false) /\
    OverrideSpecial imported = "" /\
    Keepers imported = ∅.
Proof.
  intros Hrun Hst.
  destruct (createString_inv _ _ _ _ _ _ _ Hrun Hst)
    as (? & ? & ? & ? & ? & ? & sorted & _ & _ & _ & _ & _ & _ & _ & ->).
  eexists. split; [reflexivity|]. by cbn.
Qed.

Lemma importString_after_createString_witness :
  createString sort_short [] override_xy true [0; 1; 2; 0; 0; 0] =
  state_set override_xy true "xyx" /\
  exists imported,
    importString "xyx" true =
    {| ImportDiagnostics := []; ImportState := Some imported |} /\
    Result imported = "xyx" /\ ID imported = "none" /\ Length imported = 0.
Proof.
  assert (createString sort_short [] override_xy true [0; 1; 2; 0; 0; 0] =
          state_set override_xy true "xyx") as Hrun by (vm_compute; reflexivity).
  split; [exact Hrun|].
  destruct (importString_after_createString sort_short [] override_xy true
              [0; 1; 2; 0; 0; 0] _ _ Hrun eq_refl)
    as (imported & Himp & Hres & Hid & Hlen & _).
  exists imported. split; [exact Himp|]. split; [exact Hres|].
  split; [exact Hid|]. exact Hlen.
Defined.

(** X11: when the configuration leaves every optional attribute unset, the
    plan modifiers turn all four classes on, the minimums to 0 and the
    override to empty; then for every length from 1 both validators accept
    the model and the pool is the 83 default characters; every result
    [createString] sets for it has exactly [length] characters of that
    pool; and on a reader of [2 * length] zero bytes it does set one,
    [length] times the first character of the pool. *)
Theorem unset_attributes_generate_from_defaults
    (config plan : StringAttributes) keepers :
  BoolNull (a_special config) = true -> BoolNull (a_upper config) = true ->
  BoolNull (a_lower config) = true -> BoolNull (a_number config) = true ->
  Int64Null (a_min_numeric config) = true -> Int64Null (a_min_upper config) = true ->
  Int64Null (a_min_lower config) = true -> Int64Null (a_min_special config) = true ->
  StringNull (a_override_special config) = true ->
  1 <= Int64Value (a_length plan) < 2 ^ 63 ->
  let model := model_of keepers (planModifiers config plan) in
  lengthValidator_Validate (Length model) = [] /\
  validateLength model = [] /\
  chars_of model = upperChars +:+ lowerChars +:+ numChars +:+ defaultSpecialChars /\
  (forall sort_func picks diags sensitive rd resp str,
     createString sort_func picks {| Plan := model; Plan_diags := diags |} sensitive rd =
     Returned resp ->
     State resp = Some str ->
     Z.of_nat (String.length (Result str)) = Int64Value (a_length plan) /\
     Forall (fun c => member c (chars_of model) = true)
            (list_ascii_of_string (Result str))) /\
  (forall sort_func picks diags sensitive n,
     swaps_in_range sort_func -> HasError diags = false ->
     Int64Value (a_length plan) <= maxAlloc ->
     (2 * Z.to_nat (Int64Value (a_length plan)) <= n)%nat ->
     createString sort_func picks {| Plan := model; Plan_diags := diags |} sensitive
       (replicate n 0) =
     state_set {| Plan := model; Plan_diags := diags |} sensitive
       (string_of_list_ascii (replicate (Z.to_nat (Int64Value (a_length plan))) "A"%char))).
Proof.
  intros Hs Hu Hl Hn Hmn Hmu Hml Hms Ho HL model.
  assert (model =
          {| ID := ""; Keepers := keepers; Length := Int64Value (a_length plan);
             Special := true; Upper := true; Lower := true; Number := true;
             MinNumeric := 0; MinUpper := 0; MinLower := 0; MinSpecial := 0;
             OverrideSpecial := ""; Result := "" |}) as Hmodel.
  { unfold model, model_of, planModifiers, defaultBool_Modify, defaultInt_Modify,
      defaultOverrideSpecial_Modify. cbn.
    by rewrite Hs, Hu, Hl, Hn, Hmn, Hmu, Hml, Hms, Ho. }
  assert (wf_spec model) as Hwf.
  { rewrite Hmodel. split; unfold sum_mins; cbn; lia. }
  assert (Length model = Int64Value (a_length plan)) as HLm by (by rewrite Hmodel).
  split.
  { rewrite Hmodel. cbn [Length]. unfold lengthValidator_Validate.
    by destruct (Z.ltb_spec (Int64Value (a_length plan)) 1); [lia|]. }
  split.
  { apply validateLength_accepts_iff; [done|]. rewrite Hmodel. unfold sum_mins. cbn. lia. }
  split; [by rewrite Hmodel|].
  split.
  - intros sort_func picks diags sensitive rd resp str Hrun Hst. split.
    + rewrite <- HLm.
      exact (createString_length sort_func picks
               {| Plan := model; Plan_diags := diags |} sensitive rd _ _
               Hwf Hrun Hst).
    + apply Forall_forall. intros c Hc.
      destruct (createString_sources sort_func picks
                  {| Plan := model; Plan_diags := diags |} sensitive rd _ _ c
                  Hrun Hst Hc) as [Hpool|(k & v & Hk & Hv & _)]; [done|].
      cbn [Plan] in Hk.
      destruct (minMapping_lookup _ _ _ Hk) as [[_ ->]|[[_ ->]|[[_ ->]|[_ ->]]]];
        rewrite Hmodel in Hv; cbn in Hv; lia.
  - intros sort_func picks diags sensitive n Hsort Herr Hmax Hcount.
    rewrite <- HLm.
    apply createString_zero_reader; cbn [Plan Plan_diags]; try done;
      try (by rewrite Hmodel).
    + rewrite HLm. lia.
    + rewrite HLm. replace (Int_bytes (len (chars_of model))) with 1%nat
        by (by rewrite Hmodel). lia.
Qed.

Lemma unset_attributes_generate_from_defaults_witness :
  let model := model_of ∅ (planModifiers
                 (length_only 4 null_bool null_int null_string)
                 (length_only 4 unknown_bool unknown_int unknown_string)) in
  lengthValidator_Validate (Length model) = [] /\
  validateLength model = [] /\
  chars_of model = upperChars +:+ lowerChars +:+ numChars +:+ defaultSpecialChars /\
  createString sort_short [] {| Plan := model; Plan_diags := [] |} false
    (replicate 8 0) =
  state_set {| Plan := model; Plan_diags := [] |} false "AAAA".
Proof.
  destruct (unset_attributes_generate_from_defaults
              (length_only 4 null_bool null_int null_string)
              (length_only 4 unknown_bool unknown_int unknown_string) ∅)
    as (Hlv & Hvl & Hchars & _ & Hzero);
    try reflexivity; [by_evaluation|].
  split; [exact Hlv|]. split; [exact Hvl|]. split; [exact Hchars|].
  apply (Hzero sort_short [] [] false 8%nat);
    first [reflexivity | apply sort_short_in_range | by_evaluation | (vm_compute; lia)].
Defined.

(** ** The acceptance check of the shuffle *)

Section ShuffleCheck.

Lemma check_items_passes attrs i wants :
  check_items attrs i wants = None <->
  forall j want, wants !! j = Some want ->
                 attr attrs ("result." +:+ pretty (i + j)%nat) = want.
Proof.
  revert i. induction wants as [|w wants IH]; intros i; simpl.
  - split; [|done]. intros _ j want Hj. by rewrite lookup_nil in Hj.
  - destruct (String.eqb_spec (attr attrs ("result." +:+ pretty i)) w) as [Hw|Hw].
    + rewrite IH. split.
      * intros Hall [|j] want Hj; simpl in Hj.
        -- injection Hj as <-. by rewrite Nat.add_0_r.
        -- rewrite <- Nat.add_succ_comm. by apply Hall.
      * intros Hall j want Hj. rewrite Nat.add_succ_comm. by apply (Hall (S j)).
    + split; [done|]. intros Hall. exfalso. apply Hw.
      rewrite <- (Hall O w eq_refl). by rewrite Nat.add_0_r.
Qed.

(** When an item fails, the error names the first index whose attribute
    differs from the wanted item, with both values. *)
Lemma check_items_first_mismatch attrs i wants e :
  check_items attrs i wants = Some e ->
  exists j want,
    wants !! j = Some want /\
    e = WrongItem (i + j) (attr attrs ("result." +:+ pretty (i + j)%nat)) want /\
    attr attrs ("result." +:+ pretty (i + j)%nat) <> want /\
    forall j' want', (j' < j)%nat -> wants !! j' = Some want' ->
                     attr attrs ("result." +:+ pretty (i + j')%nat) = want'.
Proof.
  revert i. induction wants as [|w wants IH]; intros i; simpl; [done|].
  destruct (String.eqb_spec (attr attrs ("result." +:+ pretty i)) w) as [Hw|Hw].
  - intros (j & want & Hj & -> & Hne & Hprev)%IH.
    exists (S j), want. rewrite <- !Nat.add_succ_comm. split; [done|].
    split; [done|]. split; [done|].
    intros [|j'] want' Hlt Hj'; simpl in Hj'.
    + injection Hj' as <-. by rewrite Nat.add_0_r.
    + rewrite <- Nat.add_succ_comm. apply Hprev; [lia|done].
  - intros [= <-]. exists O, w. rewrite Nat.add_0_r. split; [done|].
    split; [done|]. split; [done|]. intros j' want' Hlt. lia.
Qed.

End ShuffleCheck.

(** X12: [testAccResourceShuffleCheck] passes exactly when the resource is
    in the state, its id is not empty, the attribute [result.#] is the
    decimal count of the wanted items and every attribute [result.i] is the
    wanted item [i], a missing attribute reading as the empty string. *)
Theorem testAccResourceShuffleCheck_passes_iff id wants resources :
  testAccResourceShuffleCheck id wants resources = None <->
  exists rs,
    resources !! id = Some rs /\
    PrimaryID rs <> "" /\
    attr (Attributes rs) "result.#" = pretty (List.length wants) /\
    forall i want, wants !! i = Some want ->
                   attr (Attributes rs) ("result." +:+ pretty i) = want.
Proof.
  unfold testAccResourceShuffleCheck.
  destruct (resources !! id) as [rs|].
  2: { split; [done|]. by intros (rs & ? & _). }
  destruct (String.eqb_spec (PrimaryID rs) "") as [Hid|Hid].
  { split; [done|]. intros (rs' & [= <-] & ? & _). done. }
  destruct (String.eqb_spec (attr (Attributes rs) "result.#")
              (pretty (List.length wants))) as [Hlen|Hlen].
  - rewrite check_items_passes. split.
    + intros Hall. exists rs. split; [done|]. split; [done|]. split; [done|].
      intros i want Hi. by apply (Hall i).
    + intros (rs' & [= <-] & _ & _ & Hall) j want Hj. by apply (Hall j).
  - split; [done|]. intros (rs' & [= <-] & _ & ? & _). done.
Qed.

(** X13: when [testAccResourceShuffleCheck] fails on an item, the error
    names the first index whose attribute differs from the wanted item,
    with the attribute read and the item wanted; every earlier item
    matched. *)
Theorem testAccResourceShuffleCheck_first_mismatch id wants resources i got want :
  testAccResourceShuffleCheck id wants resources = Some (WrongItem i got want) ->
  exists rs,
    resources !! id = Some rs /\
    wants !! i = Some want /\
    got = attr (Attributes rs) ("result." +:+ pretty i) /\
    got <> want /\
    forall j want', (j < i)%nat -> wants !! j = Some want' ->
                    attr (Attributes rs) ("result." +:+ pretty j) = want'.
Proof.
  unfold testAccResourceShuffleCheck.
  destruct (resources !! id) as [rs|]; [|done].
  destruct (String.eqb (PrimaryID rs) ""); [done|].
  destruct (String.eqb _ _); [|done].
  intros (j & w & Hj & [= -> -> ->] & Hne & Hprev)%check_items_first_mismatch.
  exists rs. simpl in *. split; [done|]. split; [done|]. split; [done|].
  split; [done|]. intros j' want' Hlt Hj'. by apply (Hprev j').
Qed.

Lemma testAccResourceShuffleCheck_first_mismatch_witness :
  testAccResourceShuffleCheck "random_shuffle.default_length"
    ["a"; "c"; "d"; "e"; "b"] shuffled_state = Some (WrongItem 2 "b" "d") /\
  exists rs,
    shuffled_state !! "random_shuffle.default_length" = Some rs /\
    ["a"; "c"; "d"; "e"; "b"] !! 2%nat = Some "d" /\
    "b" = attr (Attributes rs) ("result." +:+ pretty 2%nat) /\
    "b" <> "d" /\
    forall j want', (j < 2)%nat -> ["a"; "c"; "d"; "e"; "b"] !! j = Some want' ->
                    attr (Attributes rs) ("result." +:+ pretty j) = want'.
Proof.
  assert (testAccResourceShuffleCheck "random_shuffle.default_length"
            ["a"; "c"; "d"; "e"; "b"] shuffled_state = Some (WrongItem 2 "b" "d"))
    as Hrun by (vm_compute; reflexivity).
  split; [exact Hrun|].
  exact (testAccResourceShuffleCheck_first_mismatch _ _ _ _ _ _ Hrun).
Defined.

(** ** The state upgrade of the password resource *)

(** X14: when [resourcePasswordStateUpgradeV0] succeeds, the state it
    returns is the old one with [bcrypt_hash] set to the hash of the old
    [result], which was a string: [result] and every other attribute are
    kept as they were. *)
Theorem resourcePasswordStateUpgradeV0_keeps_state
    (GenerateFromPassword : string -> Z -> string + error) rawState upgraded :
  resourcePasswordStateUpgradeV0 GenerateFromPassword rawState = inl upgraded ->
  exists old result hash,
    rawState = Some old /\
    old !! "result" = Some (IString result) /\
    GenerateFromPassword result 10 = inl hash /\
    upgraded !! "bcrypt_hash" = Some (IString hash) /\
    upgraded !! "result" = Some (IString result) /\
    forall k, k <> "bcrypt_hash" -> upgraded !! k = old !! k.
Proof.
  unfold resourcePasswordStateUpgradeV0, generateHash, DefaultCost.
  destruct rawState as [old|]; [|done].
  destruct (old !! "result") as [[result| | |]|] eqn:Hres; try done.
  destruct (GenerateFromPassword result 10) as [hash|err] eqn:Hhash; [|done].
  intros [= <-]. exists old, result, hash.
  split; [done|]. split; [done|]. split; [done|].
  split; [apply lookup_insert_eq|].
  split; [by rewrite lookup_insert_ne|].
  intros k Hk. by rewrite lookup_insert_ne.
Qed.

Lemma resourcePasswordStateUpgradeV0_keeps_state_witness :
  resourcePasswordStateUpgradeV0 toy_hash (Some old_password_state) =
  inl (<["bcrypt_hash" := IString "$2a$10$hunter2"]> old_password_state) /\
  exists old result hash,
    Some old_password_state = Some old /\
    old !! "result" = Some (IString result) /\
    toy_hash result 10 = inl hash /\
    (<["bcrypt_hash" := IString "$2a$10$hunter2"]> old_password_state)
      !! "bcrypt_hash" = Some (IString hash) /\
    (<["bcrypt_hash" := IString "$2a$10$hunter2"]> old_password_state)
      !! "result" = Some (IString result) /\
    forall k, k <> "bcrypt_hash" ->
      (<["bcrypt_hash" := IString "$2a$10$hunter2"]> old_password_state) !! k =
      old !! k.
Proof.
  assert (resourcePasswordStateUpgradeV0 toy_hash (Some old_password_state) =
          inl (<["bcrypt_hash" := IString "$2a$10$hunter2"]> old_password_state))
    as Hrun by (vm_compute; reflexivity).
  split; [exact Hrun|].
  exact (resourcePasswordStateUpgradeV0_keeps_state toy_hash _ _ Hrun).
Defined.

(** X15: [resourcePasswordStateUpgradeV0] fails, without calling the hash
    function, on a nil state and on a state whose [result] is missing or
    not a string; and when the hash function fails, its error is the
    upgrade's. *)
Theorem resourcePasswordStateUpgradeV0_errors
    (GenerateFromPassword : string -> Z -> string + error) rawState err :
  resourcePasswordStateUpgradeV0 GenerateFromPassword rawState = inr err <->
  (rawState = None /\ err = StateIsNil) \/
  (exists old, rawState = Some old /\
     (forall s, old !! "result" <> Some (IString s)) /\
     err = ResultNotString (old !! "result")) \/
  (exists old result e, rawState = Some old /\
     old !! "result" = Some (IString result) /\
     GenerateFromPassword result 10 = inr e /\
     err = GenerateHashError e).
Proof.
  unfold resourcePasswordStateUpgradeV0, generateHash, DefaultCost. split.
  - destruct rawState as [old|]; [|intros [= <-]; by left].
    destruct (old !! "result") as [[result| | |]|] eqn:Hres.
    + destruct (GenerateFromPassword result 10) as [hash|e] eqn:Hhash; [done|].
      intros [= <-]. do 2 right. by exists old, result, e.
    + intros [= <-]. right. left. exists old. by rewrite Hres.
    + intros [= <-]. right. left. exists old. by rewrite Hres.
    + intros [= <-]. right. left. exists old. by rewrite Hres.
    + intros [= <-]. right. left. exists old. by rewrite Hres.
  - intros [[-> ->]|[(old & -> & Hns & ->)|(old & result & e & -> & Hr & Hh & ->)]].
    + done.
    + destruct (old !! "result") as [[s| | |]|] eqn:Hres; try done.
      exfalso. by apply (Hns s).
    + by rewrite Hr, Hh.
Qed.

(** ** The reordering step *)

(** X16: the sorting routine behind [sort.Slice] decides the order of the
    result only: two runs on the same request, iteration order and reader
    with two different routines set results that are permutations of each
    other. *)
Theorem createString_sort_only_permutes sort1 sort2 picks req sensitive rd r1 r2 :
  createString sort1 picks req sensitive rd = state_set req sensitive r1 ->
  createString sort2 picks req sensitive rd = state_set req sensitive r2 ->
  list_ascii_of_string r1 ≡ₚ list_ascii_of_string r2.
Proof.
  intros Hrun1 Hrun2.
  destruct (createString_inv _ _ _ _ _ _ _ Hrun1 eq_refl)
    as (b1 & rd1 & s1 & rd1' & o1 & rd1'' & sorted1 &
        _ & _ & _ & Hloop1 & Hgen1 & _ & Hsort1 & Hres1).
  destruct (createString_inv _ _ _ _ _ _ _ Hrun2 eq_refl)
    as (b2 & rd2 & s2 & rd2' & o2 & rd2'' & sorted2 &
        _ & _ & _ & Hloop2 & Hgen2 & _ & Hsort2 & Hres2).
  rewrite Hloop1 in Hloop2. injection Hloop2 as <- <-.
  rewrite Hgen1 in Hgen2. injection Hgen2 as <- <-.
  apply (f_equal Result) in Hres1, Hres2. cbn [Result new_state] in Hres1, Hres2.
  rewrite Hres1, Hres2, !list_ascii_of_string_of_list_ascii.
  apply apply_swaps_Permutation in Hsort1, Hsort2.
  by rewrite Hsort1, Hsort2.
Qed.

Lemma createString_sort_only_permutes_witness :
  createString sort_short [] three_upper false [0; 1; 2; 1; 2; 0] =
  state_set three_upper false "ACB" /\
  createString (fun _ _ => []) [] three_upper false [0; 1; 2; 1; 2; 0] =
  state_set three_upper false "ABC" /\
  list_ascii_of_string "ACB" ≡ₚ list_ascii_of_string "ABC".
Proof.
  assert (createString sort_short [] three_upper false [0; 1; 2; 1; 2; 0] =
          state_set three_upper false "ACB") as Hrun1 by (vm_compute; reflexivity).
  assert (createString (fun _ _ => []) [] three_upper false [0; 1; 2; 1; 2; 0] =
          state_set three_upper false "ABC") as Hrun2 by (vm_compute; reflexivity).
  split; [exact Hrun1|]. split; [exact Hrun2|].
  exact (createString_sort_only_permutes _ _ _ _ _ _ _ _ Hrun1 Hrun2).
Defined.
